(** * StickyRolo: the metadata parser and the context extractor of Code.js

    A shallow embedding of [parseBodyContent] (the buffer-to-entry
    conversion [processBuffer], the heading-aware line loop and the
    description backfill pass) and of [getCurrentContext] (the bounded
    walks over previous and next siblings), followed by the properties
    the specification states about them. *)

From Stdlib Require Import List String Ascii Bool Arith NArith Lia.
From Equations Require Import Equations.
Import ListNotations.
Open Scope string_scope.
Open Scope list_scope.

(** String concatenation, the [+] of the source on strings. *)
Infix "+++" := String.append (right associativity, at level 60).

(* ===================================================================== *)
(** ** JavaScript strings

    A string is a sequence of code units; the embedding keeps the code
    units below 256, which is what [Ascii.ascii] holds. *)
(* ===================================================================== *)

Module JsString.

(** [s === ""] *)
Definition isEmpty (s : string) : bool :=
  match s with
  | EmptyString => true
  | String _ _ => false
  end.

(** [s.includes(c)] for a one-character needle. *)
Fixpoint includes (c : ascii) (s : string) : bool :=
  match s with
  | EmptyString => false
  | String d r => if Ascii.eqb d c then true else includes c r
  end.

(** [s.startsWith(p)] *)
Definition startsWith (p s : string) : bool := String.prefix p s.

(** [s.split(c)] for a one-character separator: the pieces between the
    occurrences of [c]; the empty string splits into one empty piece. *)
Fixpoint split (c : ascii) (s : string) : list string :=
  match s with
  | EmptyString => [EmptyString]
  | String d r =>
      if Ascii.eqb d c then EmptyString :: split c r
      else match split c r with
           | h :: t => String d h :: t
           | [] => [String d EmptyString]
           end
  end.

(** [a.join(sep)] on an array of strings. *)
Fixpoint join (sep : string) (a : list string) : string :=
  match a with
  | [] => EmptyString
  | [x] => x
  | x :: rest => x +++ sep +++ join sep rest
  end.

(** The WhiteSpace and LineTerminator code units below 256: TAB, LF, VT,
    FF, CR, SP and NBSP. *)
Definition isWhiteSpace (c : ascii) : bool :=
  let n := nat_of_ascii c in
  ((n =? 9) || (n =? 10) || (n =? 11) || (n =? 12) || (n =? 13)
   || (n =? 32) || (n =? 160))%nat.

Fixpoint trimStart (s : string) : string :=
  match s with
  | EmptyString => EmptyString
  | String c r => if isWhiteSpace c then trimStart r else s
  end.

Fixpoint trimEnd (s : string) : string :=
  match s with
  | EmptyString => EmptyString
  | String c r =>
      match trimEnd r with
      | EmptyString => if isWhiteSpace c then EmptyString else String c EmptyString
      | r' => String c r'
      end
  end.

(** [s.trim()] *)
Definition trim (s : string) : string := trimEnd (trimStart s).

(** Truthiness of a value that is [null] or a string: [null] and the
    empty string are falsy. *)
Definition truthy (o : option string) : bool :=
  match o with
  | Some s => negb (isEmpty s)
  | None => false
  end.

End JsString.
Import JsString.

(* ===================================================================== *)
(** ** JavaScript objects used as string-keyed maps

    [metadata] and [properties] are plain objects written with
    [o[k] = v] and read with [o[k]] and [Object.keys(o)].  The order of
    [Object.keys] is observable (the backfill pass joins child names in
    that order), so an object is the list of its own properties in
    enumeration order: array-index keys in ascending numeric order
    first, then the other keys in the order they were created.  The
    key ["__proto__"] is no ordinary property name: a write to it
    stores nothing ([assign]). *)
(* ===================================================================== *)

Module JsObject.

Definition Obj (V : Type) : Type := list (string * V).

Definition digit (c : ascii) : option N :=
  let n := N_of_ascii c in
  if ((48 <=? n) && (n <=? 57))%N then Some (n - 48)%N else None.

Fixpoint digits (s : string) (acc : N) : option N :=
  match s with
  | EmptyString => Some acc
  | String c r =>
      match digit c with
      | Some d => digits r (10 * acc + d)%N
      | None => None
      end
  end.

(** A key is an array index when it is the canonical decimal form of an
    integer from 0 to 2^32 - 2. *)
Definition arrayIndex (k : string) : option N :=
  match k with
  | EmptyString => None
  | String c r =>
      if Ascii.eqb c "0" && negb (isEmpty r) then None
      else match digits k 0 with
           | Some n => if (n <=? 4294967294)%N then Some n else None
           | None => None
           end
  end.

Section Operations.
Context {V : Type}.

(** [o[k]] for an own property. *)
Fixpoint get (k : string) (o : Obj V) : option V :=
  match o with
  | [] => None
  | (k', v) :: r => if String.eqb k' k then Some v else get k r
  end.

(** [Object.keys(o)] *)
Definition keys (o : Obj V) : list string := map fst o.

Definition has (k : string) (o : Obj V) : bool :=
  match get k o with
  | Some _ => true
  | None => false
  end.

(** Apply [f] to the value stored under [k]; the key keeps its place. *)
Fixpoint adjust (k : string) (f : V -> V) (o : Obj V) : Obj V :=
  match o with
  | [] => []
  | (k', v) :: r =>
      if String.eqb k' k then (k', f v) :: r else (k', v) :: adjust k f r
  end.

(** Create array-index key [k] (of value [n]) in its numeric place. *)
Fixpoint insertIndex (n : N) (k : string) (v : V) (o : Obj V) : Obj V :=
  match o with
  | [] => [(k, v)]
  | (k', v') :: r =>
      match arrayIndex k' with
      | Some n' =>
          if (n' <? n)%N then (k', v') :: insertIndex n k v r
          else (k, v) :: o
      | None => (k, v) :: o
      end
  end.

(** [o[k] = v] for an ordinary key: an own property is written. *)
Definition set (k : string) (v : V) (o : Obj V) : Obj V :=
  if has k o then adjust k (fun _ => v) o
  else match arrayIndex k with
       | Some n => insertIndex n k v o
       | None => o ++ [(k, v)]
       end.

(** [o[k] = v] for any key of a plain object: the key ["__proto__"]
    reaches the setter of [Object.prototype], which changes the
    prototype at most and makes no own property, so that neither
    [Object.keys(o)] nor the own properties change. *)
Definition assign (k : string) (v : V) (o : Obj V) : Obj V :=
  if String.eqb k "__proto__" then o else set k v o.

End Operations.
End JsObject.

(** JavaScript arrays of strings with holes: [None] is an absent element
    (a hole or [undefined]), which [join] renders as the empty string. *)

Module JsArray.

Definition Arr : Type := list (option string).

(** [a[i] = v] for [i >= 0]: writing past the end extends the array with
    holes. *)
Fixpoint set (i : nat) (v : string) (a : Arr) : Arr :=
  match i, a with
  | O, [] => [Some v]
  | O, _ :: r => Some v :: r
  | S i', [] => None :: set i' v []
  | S i', x :: r => x :: set i' v r
  end.

(** [a.length = n]: truncates, or extends with holes. *)
Definition setLength (n : nat) (a : Arr) : Arr :=
  firstn n a ++ repeat None (n - List.length a).

(** [a.slice(0, e)] for [e >= 0]. *)
Definition slice0 (e : nat) (a : Arr) : Arr := firstn e a.

(** [a.slice(0, -1)]: everything but the last element. *)
Definition sliceButLast (a : Arr) : Arr := firstn (List.length a - 1) a.

Definition element (o : option string) : string :=
  match o with
  | Some s => s
  | None => EmptyString
  end.

(** [a.join(sep)] *)
Definition join (sep : string) (a : Arr) : string :=
  JsString.join sep (map element a).

End JsArray.

(* ===================================================================== *)
(** ** The metadata parser, [parseBodyContent] *)
(* ===================================================================== *)

(** One element of [lines]: the trimmed text of a paragraph, its named
    style and the first image found in it ([null] when there is none). *)
Record Line : Type := mkLine {
  text : string;
  style : string;
  imageUrl : option string
}.

(** One value of [metadata]; the field [imageUrl] of the source is
    [itemImageUrl] here, [imageUrl] being the field of a line. *)
Record Item : Type := mkItem {
  description : string;
  properties : JsObject.Obj string;
  category : string;
  itemImageUrl : option string
}.

Definition Metadata : Type := JsObject.Obj Item.

(** [x.text === "" && !x.imageUrl] *)
Definition blankLine (x : Line) : bool :=
  isEmpty (text x) && negb (truthy (imageUrl x)).

(** The [while] loop of [processBuffer], lines 145-147: shift while the
    first line has empty text and no image. *)
Fixpoint shiftLeading (buf : list Line) : list Line :=
  match buf with
  | [] => []
  | b :: rest => if blankLine b then shiftLeading rest else buf
  end.

(** Lines 152-155: the second line is the description unless it contains
    a colon or starts with an underscore. *)
Definition descriptionOf (buf : list Line) : string :=
  match buf with
  | _ :: b1 :: _ =>
      if negb (includes ":" (text b1)) && negb (startsWith "_" (text b1))
      then text b1 else EmptyString
  | _ => EmptyString
  end.

(** Lines 161-163: the image of the first line, else of the second. *)
Definition headImage (buf : list Line) : option string :=
  let foundImageUrl :=
    match buf with
    | b0 :: _ => if truthy (imageUrl b0) then imageUrl b0 else None
    | [] => None
    end in
  match buf with
  | _ :: b1 :: _ =>
      if negb (truthy foundImageUrl) && truthy (imageUrl b1)
      then imageUrl b1 else foundImageUrl
  | _ => foundImageUrl
  end.

(** Lines 177-184: the key and value of a line that contains a colon,
    kept when both are non-empty after trimming. *)
Definition propertyOf (line : string) : option (string * string) :=
  if includes ":" line then
    let parts := split ":" line in
    let key := trim (hd EmptyString parts) in
    let val := trim (JsString.join ":" (tl parts)) in
    if negb (isEmpty key) && negb (isEmpty val) then Some (key, val) else None
  else None.

(** The [for] loop of lines 167-185 over [buf[startIndex..]], threading
    [properties] and [foundImageUrl]; a line starting with an underscore
    leaves the loop, after its image was looked at. *)
Fixpoint scanLines (rest : list Line) (props : JsObject.Obj string)
    (foundImageUrl : option string) : JsObject.Obj string * option string :=
  match rest with
  | [] => (props, foundImageUrl)
  | b :: rest' =>
      let line := text b in
      let foundImageUrl :=
        if negb (truthy foundImageUrl) && truthy (imageUrl b)
        then imageUrl b else foundImageUrl in
      if startsWith "_" line then (props, foundImageUrl)
      else
        let props :=
          match propertyOf line with
          | Some (key, val) => JsObject.set key val props
          | None => props
          end in
        scanLines rest' props foundImageUrl
  end.

(** Line 165: [(description !== "") ? 2 : 1]. *)
Definition startIndex (buf : list Line) : nat :=
  if negb (isEmpty (descriptionOf buf)) then 2 else 1.

(** Lines 151-185 and the object literal of lines 188-193: the item a
    shifted, non-empty buffer describes. *)
Definition buildItem (buf : list Line) (pathStr : string) : Item :=
  let description := descriptionOf buf in
  let '(properties, foundImageUrl) :=
    scanLines (skipn (startIndex buf) buf) [] (headImage buf) in
  mkItem description properties pathStr foundImageUrl.

(** [processBuffer] after its [while] loop, lines 149-194. *)
Definition processShifted (buf : list Line) (pathStr : string)
    (metadata : Metadata) : Metadata :=
  match buf with
  | [] => metadata
  | b0 :: _ =>
      let name := text b0 in
      if negb (isEmpty name) then
        JsObject.assign name (buildItem buf pathStr) metadata
      else metadata
  end.

(** [processBuffer], lines 143-195. *)
Definition processBuffer (buf : list Line) (pathStr : string)
    (metadata : Metadata) : Metadata :=
  processShifted (shiftLeading buf) pathStr metadata.

(** The earlier copy of the script kept in the same file, lines 486-536:
    its [while] loop shifts on empty text alone; the rest is the same. *)
Module Earlier.

Fixpoint shiftLeading (buf : list Line) : list Line :=
  match buf with
  | [] => []
  | b :: rest => if isEmpty (text b) then shiftLeading rest else buf
  end.

Definition processBuffer (buf : list Line) (pathStr : string)
    (metadata : Metadata) : Metadata :=
  processShifted (shiftLeading buf) pathStr metadata.

End Earlier.

(** [style.match(/^HEADING_(\d)$/)] followed by [parseInt]: the level of
    a heading style, a single decimal digit. *)
Definition headingMatch (s : string) : option nat :=
  if String.eqb (substring 0 8 s) "HEADING_" && (String.length s =? 9)%nat then
    match String.get 8 s with
    | Some d => option_map N.to_nat (JsObject.digit d)
    | None => None
    end
  else None.

(** The variables the line loop of [parseBodyContent] updates. *)
Record ParseState : Type := mkState {
  metadata : Metadata;
  buffer : list Line;
  headingStack : JsArray.Arr;
  currentPath : string
}.

Definition initialState : ParseState := mkState [] [] [] EmptyString.

(** [if (buffer.length > 0) { processBuffer(buffer, currentPath); buffer = []; }] *)
Definition flush (st : ParseState) : ParseState :=
  match buffer st with
  | [] => st
  | _ :: _ =>
      mkState (processBuffer (buffer st) (currentPath st) (metadata st))
              [] (headingStack st) (currentPath st)
  end.

(** [headingStack.slice(0, level - 1)] *)
Definition ancestors (level : nat) (stack : JsArray.Arr) : JsArray.Arr :=
  match level with
  | O => JsArray.sliceButLast stack
  | S i => JsArray.slice0 i stack
  end.

(** [headingStack[level - 1] = t; headingStack.length = level]; at level
    0 the write goes to the property [-1], which is no element. *)
Definition recordHeading (level : nat) (t : string) (stack : JsArray.Arr)
    : JsArray.Arr :=
  match level with
  | O => JsArray.setLength 0 stack
  | S i => JsArray.setLength level (JsArray.set i t stack)
  end.

(** The body of [lines.forEach], lines 198-232. *)
Definition step (st : ParseState) (lineObj : Line) : ParseState :=
  match headingMatch (style lineObj) with
  | Some level =>
      let st1 := flush st in
      let parentPath := JsArray.join " > " (ancestors level (headingStack st1)) in
      mkState (metadata st1) (buffer st1 ++ [lineObj])
              (recordHeading level (text lineObj) (headingStack st1))
              parentPath
  | None =>
      if blankLine lineObj then
        let st1 := flush st in
        mkState (metadata st1) (buffer st1) (headingStack st1)
                (JsArray.join " > " (headingStack st1))
      else
        let path :=
          match buffer st with
          | [] => JsArray.join " > " (headingStack st)
          | _ :: _ => currentPath st
          end in
        mkState (metadata st) (buffer st ++ [lineObj]) (headingStack st) path
  end.

(** The line loop followed by the last flush, lines 198-236. *)
Definition collect (lines : list Line) : Metadata :=
  metadata (flush (fold_left step lines initialState)).

(** [!item.description || item.description.trim() === ""] *)
Definition blankDescription (item : Item) : bool :=
  isEmpty (description item) || isEmpty (trim (description item)).

(** Line 246. *)
Definition expectedChildCategory (parentName : string) (item : Item) : string :=
  if negb (isEmpty (category item)) then category item +++ " > " +++ parentName
  else parentName.

(** Lines 248-252: the keys whose item has the expected category. *)
Definition childrenOf (metadata : Metadata) (expected : string) : list string :=
  filter (fun childName =>
            match JsObject.get childName metadata with
            | Some child => String.eqb (category child) expected
            | None => false
            end)
         (JsObject.keys metadata).

Definition setDescription (d : string) (item : Item) : Item :=
  mkItem d (properties item) (category item) (itemImageUrl item).

(** The body of the outer [forEach] of the backfill pass, lines 240-257;
    the assignment to [item.description] changes the item stored in
    [metadata]. *)
Definition backfillStep (metadata : Metadata) (parentName : string) : Metadata :=
  match JsObject.get parentName metadata with
  | None => metadata
  | Some item =>
      if blankDescription item then
        let children := childrenOf metadata (expectedChildCategory parentName item) in
        if (0 <? List.length children)%nat then
          JsObject.adjust parentName
            (setDescription ("Entries: " +++ JsString.join ", " children)) metadata
        else metadata
      else metadata
  end.

(** The backfill pass, lines 239-258. *)
Definition backfill (metadata : Metadata) : Metadata :=
  fold_left backfillStep (JsObject.keys metadata) metadata.

(** [parseBodyContent] from the extracted [lines] on. *)
Definition parseBodyContent (lines : list Line) : Metadata :=
  backfill (collect lines).

(** *** The image scan in the words of the specification *)

(** The image of the first line that has one. *)
Fixpoint firstImage (ls : list Line) : option string :=
  match ls with
  | [] => None
  | b :: r => if truthy (imageUrl b) then imageUrl b else firstImage r
  end.

(** The second line when it was taken as the description. *)
Definition descriptionLine (buf : list Line) : list Line :=
  match buf with
  | _ :: b1 :: _ => if negb (isEmpty (descriptionOf buf)) then [b1] else []
  | _ => []
  end.

(** The lines before the first stop marker. *)
Fixpoint beforeStop (rest : list Line) : list Line :=
  match rest with
  | [] => []
  | b :: r => if startsWith "_" (text b) then [] else b :: beforeStop r
  end.

(** The lines up to the first stop marker, the marker included. *)
Fixpoint throughStop (rest : list Line) : list Line :=
  match rest with
  | [] => []
  | b :: r => if startsWith "_" (text b) then [b] else b :: throughStop r
  end.

(** The image as the specification words the scan: the first line, the
    description line if there is one, then the property-scan lines, a
    stop marker ending the scan without being looked at. *)
Definition claimedImage (buf : list Line) : option string :=
  firstImage (firstn 1 buf ++ descriptionLine buf
              ++ beforeStop (skipn (startIndex buf) buf)).

(** The same scan with the stop marker itself looked at before the scan
    ends. *)
Definition scannedImage (buf : list Line) : option string :=
  firstImage (firstn 1 buf ++ descriptionLine buf
              ++ throughStop (skipn (startIndex buf) buf)).

(** A line of the property scan that is no stop marker. *)
Definition scanned (b : Line) : Prop := startsWith "_" (text b) = false.

(** A line that does not set the property [key]. *)
Definition leavesKey (key : string) (b : Line) : Prop :=
  forall val, propertyOf (text b) <> Some (key, val).

(** *** Sample lines and buffers *)

Module Sample.

Definition normal (t : string) : Line := mkLine t "NORMAL_TEXT" None.
Definition pictured (t u : string) : Line := mkLine t "NORMAL_TEXT" (Some u).
Definition heading (level t : string) : Line :=
  mkLine t ("HEADING_" +++ level) None.

(** An untitled heading, a name, a description, a property, a stop
    marker that carries an image and a line after it. *)
Definition markedBuffer : list Line :=
  [heading "1" ""; normal "N"; normal "about N"; normal "k: v";
   pictured "_end" "https://img/2"; pictured "late: x" "https://img/3"].

(** A name followed at once by a stop marker that carries an image. *)
Definition markerWithImage : list Line :=
  [normal "N"; pictured "_stop" "https://img/1"].

(** An image-only paragraph followed by a text paragraph. *)
Definition imageThenName : list Line :=
  [pictured "" "https://img/1"; normal "Name"].

(** The map of the backfill example: A at the top, B and C under it. *)
Definition family : Metadata :=
  [("A", mkItem "" [] "" None);
   ("B", mkItem "d" [] "A" None);
   ("C", mkItem "" [] "A" None)].

(** Headings A and B nested, a line under B, then a new top heading. *)
Definition nesting : list Line :=
  [heading "1" "A"; heading "2" "B"; normal "x"; heading "1" "C"].

End Sample.

(* ===================================================================== *)
(** ** The context extractor, [getCurrentContext]

    The host document is seen through what the function asks of it: the
    type, text and parent of an element, the selection, the cursor, and
    the previous and next sibling of an element.  Parent chains are
    finite (an element carries its parent); sibling links are arbitrary
    functions, so a chain of siblings may be endless. *)
(* ===================================================================== *)

Inductive ElementType : Type :=
| BODY_SECTION | PARAGRAPH | LIST_ITEM | TEXT | TABLE | TABLE_ROW
| TABLE_CELL | INLINE_IMAGE | HORIZONTAL_RULE | PAGE_BREAK | FOOTNOTE
| UNSUPPORTED.

#[warning="-register-all"] Inductive Element : Type :=
| mkElement (id : nat) (type : ElementType) (txt : string)
    (parent : option Element).

Definition getType (e : Element) : ElementType :=
  match e with mkElement _ t _ _ => t end.

(** The text an element gives through [asParagraph().getText()],
    [asListItem().getText()] or [asText().getText()]. *)
Definition getText (e : Element) : string :=
  match e with mkElement _ _ s _ => s end.

Definition getParent (e : Element) : option Element :=
  match e with mkElement _ _ _ p => p end.

Record Document : Type := mkDocument {
  (** the elements of [getSelection().getRangeElements()], or [null] *)
  getSelection : option (list Element);
  (** the element of [getCursor()], or [null] *)
  getCursor : option Element;
  getPreviousSibling : Element -> option Element;
  getNextSibling : Element -> option Element
}.

Definition isBlock (t : ElementType) : bool :=
  match t with
  | PARAGRAPH | LIST_ITEM => true
  | _ => false
  end.

(** [getBlockParent], lines 278-287: the nearest paragraph or list item
    at or above the element. *)
Fixpoint getBlockParent (element : Element) : option Element :=
  match element with
  | mkElement _ type _ parent =>
      if isBlock type then Some element
      else match parent with
           | Some p => getBlockParent p
           | None => None
           end
  end.

(** [getTextSafe], lines 290-296. *)
Definition getTextSafe (el : option Element) : string :=
  match el with
  | None => EmptyString
  | Some e => if isBlock (getType e) then getText e else EmptyString
  end.

(** Lines 299-325: the core text and the two boundary blocks. *)
Record Core : Type := mkCore {
  coreText : string;
  startBlock : option Element;
  endBlock : option Element
}.

Definition selectionText (elements : list Element) : string :=
  fold_left
    (fun acc element =>
       match getType element with
       | PARAGRAPH | LIST_ITEM | TEXT => acc +++ getText element +++ " "
       | _ => acc
       end)
    elements EmptyString.

Definition captureCore (doc : Document) : Core :=
  match getSelection doc with
  | Some elements =>
      match elements with
      | [] => mkCore (selectionText elements) None None
      | first :: _ =>
          mkCore (selectionText elements)
                 (getBlockParent first)
                 (getBlockParent (last elements first))
      end
  | None =>
      match getCursor doc with
      | Some element =>
          let startBlock := getBlockParent element in
          mkCore (match startBlock with
                  | Some _ => getTextSafe startBlock
                  | None => EmptyString
                  end)
                 startBlock startBlock
      | None => mkCore EmptyString None None
      end
  end.

(** The variables of a sibling walk: the element reached, the text
    gathered, the number of non-empty siblings taken and the number of
    siblings visited. *)
Record Walk : Type := mkWalk {
  curr : Element;
  gathered : string;
  count : nat;
  safety : nat
}.

(** The number of visits the safety counter still allows. *)
Definition stepsLeft (w : Walk) : nat := 100 - safety w.
Arguments stepsLeft : simpl never.

(** [txt.trim().length > 0] *)
Definition hasContent (txt : string) : bool := negb (isEmpty (trim txt)).

Section SiblingWalk.

(** The two loops of lines 335-346 and 354-365 differ in the link they
    follow and in the side on which they add the text. *)
Variable sibling : Element -> option Element.
Variable add : string -> string -> string.
Variable limit : nat.

(** One pass through the loop body once a sibling [c] was found. *)
Definition visit (c : Element) (w : Walk) : Walk :=
  let txt := getTextSafe (Some c) in
  if hasContent txt
  then mkWalk c (add txt (gathered w)) (S (count w)) (S (safety w))
  else mkWalk c (gathered w) (count w) (S (safety w)).

(** [while (count < limit && safety < 100) { ... }] *)
Equations? walk (w : Walk) : Walk by wf (stepsLeft w) lt :=
  walk w with Nat.ltb (count w) limit => {
    | false := w
    | true with lt_dec (safety w) 100 => {
      | right _ := w
      | left _ with sibling (curr w) => {
        | None := w
        | Some c := walk (visit c w) } } }.
Proof.
  unfold stepsLeft, visit. destruct (hasContent _); cbn [safety]; lia.
Qed.

End SiblingWalk.

(** Lines 330-346. *)
Definition lookBackwards (doc : Document) (limit : nat) (start : Element) : Walk :=
  walk (getPreviousSibling doc) (fun txt prefix => txt +++ " " +++ prefix)
       limit (mkWalk start EmptyString 0 0).

(** Lines 349-365. *)
Definition lookForwards (doc : Document) (limit : nat) (start : Element) : Walk :=
  walk (getNextSibling doc) (fun txt suffix => suffix +++ " " +++ txt)
       limit (mkWalk start EmptyString 0 0).

(** [getCurrentContext], lines 267-368; [lookaround] is [None] when the
    caller passes nothing. *)
Definition getCurrentContext (doc : Document) (lookaround : option nat) : string :=
  let limit := match lookaround with Some n => n | None => 0 end in
  let core := captureCore doc in
  match startBlock core with
  | None => EmptyString
  | Some start =>
      let prefix := gathered (lookBackwards doc limit start) in
      let finish := match endBlock core with Some e => e | None => start end in
      let suffix := gathered (lookForwards doc limit finish) in
      prefix +++ " " +++ coreText core +++ " " +++ suffix
  end.

(* ===================================================================== *)
(** ** Notions used in the statements *)
(* ===================================================================== *)

(** The first [n] siblings met from [e] along a link, nearest first; the
    list is shorter when the chain ends before. *)
Fixpoint chain (sibling : Element -> option Element) (n : nat) (e : Element)
    : list Element :=
  match n with
  | O => []
  | S n' =>
      match sibling e with
      | None => []
      | Some c => c :: chain sibling n' c
      end
  end.

(** A sibling whose text, as [getTextSafe] gives it, is not blank. *)
Definition contentful (c : Element) : bool := hasContent (getTextSafe (Some c)).

(** The start and end blocks a selection gives. *)
Definition selectionStart (elements : list Element) : option Element :=
  match elements with
  | [] => None
  | first :: _ => getBlockParent first
  end.

Definition selectionEnd (elements : list Element) : option Element :=
  match elements with
  | [] => None
  | first :: _ => getBlockParent (last elements first)
  end.

(** A page of paragraphs in reading order: "hello", two empty
    paragraphs, the paragraph "start" and the paragraph "after".  The
    three siblings before "start" are, nearest first, "", "" and
    "hello". *)
Module Page.

Definition body : Element := mkElement 100 BODY_SECTION "" None.

Definition paragraph (id : nat) (t : string) : Element :=
  mkElement id PARAGRAPH t (Some body).

Definition paragraphs : list Element :=
  [paragraph 0 "hello"; paragraph 1 ""; paragraph 2 "";
   paragraph 3 "start"; paragraph 4 "after"].

Definition position (e : Element) : nat :=
  match e with mkElement id _ _ _ => id end.

Definition previous (e : Element) : option Element :=
  match position e with
  | O => None
  | S i => nth_error paragraphs i
  end.

Definition next (e : Element) : option Element :=
  nth_error paragraphs (S (position e)).

Definition start : Element := paragraph 3 "start".

(** A run of text inside the paragraph "after". *)
Definition run : Element := mkElement 40 TEXT "aft" (Some (paragraph 4 "after")).

(** The page with "start" selected and the cursor in "after". *)
Definition document : Document :=
  mkDocument (Some [start]) (Some run) previous next.

End Page.


(** The keys of a map with the category stored under each. *)
Definition categories (m : Metadata) : list (string * string) :=
  map (fun kv => (fst kv, category (snd kv))) m.

(** A map with every description blanked: what is left of the map when
    descriptions are not looked at. *)
Definition frame (m : Metadata) : Metadata :=
  map (fun kv => (fst kv, setDescription EmptyString (snd kv))) m.

(** What the backfill pass makes of the item stored under [parentName],
    children being looked up in [m]. *)
Definition fillItem (m : Metadata) (parentName : string) (item : Item) : Item :=
  if blankDescription item then
    let children := childrenOf m (expectedChildCategory parentName item) in
    if (0 <? List.length children)%nat then
      setDescription ("Entries: " +++ JsString.join ", " children) item
    else item
  else item.

(** The pass, with the children looked up in the map it started from. *)
Definition fillAll (m0 : Metadata) (ks : list string) (m : Metadata) : Metadata :=
  fold_left (fun acc k => JsObject.adjust k (fillItem m0 k) acc) ks m.

(** The keys of the entries other than [parentName] whose category is
    the expected child category of [parentName]. *)
Definition otherChildren (m : Metadata) (parentName : string) (item : Item)
    : list string :=
  filter (fun childName =>
            negb (String.eqb childName parentName) &&
            match JsObject.get childName m with
            | Some child =>
                String.eqb (category child)
                           (expectedChildCategory parentName item)
            | None => false
            end)
         (JsObject.keys m).

(** The keys of a map all are names, that is, non-empty. *)
Definition named (m : Metadata) : Prop :=
  forall k, In k (JsObject.keys m) -> k <> EmptyString.

(** A line that neither opens a heading nor separates two buffers. *)
Definition plain (l : Line) : Prop :=
  headingMatch (style l) = None /\ blankLine l = false.

(** A line at which the pending buffer is flushed. *)
Definition boundary (l : Line) : Prop :=
  headingMatch (style l) <> None \/ blankLine l = true.

(* ===================================================================== *)
(** ** The host side: the document the Docs service returns

    [Docs.Documents.get] answers with a document or throws.  Of the
    document, the script reads the tabs with their titles and contents,
    the body content, and the tables of inline and positioned objects;
    of a content element, its paragraph with its text runs, inline
    object references, positioned object ids and named style.  A field
    the script tests before use is an [option]; a document without tabs
    has a body. *)
(* ===================================================================== *)

Module Docs.

Record ImageProperties : Type := mkImageProperties {
  contentUri : option string
}.

Record EmbeddedObject : Type := mkEmbeddedObject {
  imageProperties : option ImageProperties
}.

(** The value of [inlineObjectProperties] and of
    [positionedObjectProperties]. *)
Record ObjectProperties : Type := mkObjectProperties {
  embeddedObject : option EmbeddedObject
}.

Record InlineObject : Type := mkInlineObject {
  inlineObjectProperties : option ObjectProperties
}.

Record PositionedObject : Type := mkPositionedObject {
  positionedObjectProperties : option ObjectProperties
}.

Record TextRun : Type := mkTextRun {
  content : option string
}.

Record InlineObjectElement : Type := mkInlineObjectElement {
  inlineObjectId : string
}.

Record ParagraphElement : Type := mkParagraphElement {
  textRun : option TextRun;
  inlineObjectElement : option InlineObjectElement
}.

Record ParagraphStyle : Type := mkParagraphStyle {
  namedStyleType : option string
}.

Record Paragraph : Type := mkParagraph {
  elements : list ParagraphElement;
  positionedObjectIds : option (list string);
  paragraphStyle : option ParagraphStyle
}.

Record StructuralElement : Type := mkStructuralElement {
  paragraph : option Paragraph
}.

(** [p && p.embeddedObject && p.embeddedObject.imageProperties]: when
    the chain holds, the [contentUri] at its end. *)
Definition imageUri (p : option ObjectProperties) : option (option string) :=
  match p with
  | Some props =>
      match embeddedObject props with
      | Some eo =>
          match imageProperties eo with
          | Some ip => Some (contentUri ip)
          | None => None
          end
      | None => None
      end
  | None => None
  end.

(** The [contentUri] an inline object id resolves to, lines 103-107. *)
Definition inlineUri (inlineObjects : JsObject.Obj InlineObject) (objectId : string)
    : option (option string) :=
  match JsObject.get objectId inlineObjects with
  | Some o => imageUri (inlineObjectProperties o)
  | None => None
  end.

(** The [contentUri] a positioned object id resolves to, lines 119-122. *)
Definition positionedUri (positionedObjects : JsObject.Obj PositionedObject)
    (objectId : string) : option (option string) :=
  match JsObject.get objectId positionedObjects with
  | Some o => imageUri (positionedObjectProperties o)
  | None => None
  end.

(** The text of a run when [el.textRun && el.textRun.content] holds. *)
Definition runContent (el : ParagraphElement) : option string :=
  match textRun el with
  | Some tr =>
      match content tr with
      | Some c => if isEmpty c then None else Some c
      | None => None
      end
  | None => None
  end.

(** The body of the loop over [paragraph.elements], lines 99-114, on the
    pair of [text] and [imageUrl]. *)
Definition readElement (inlineObjects : JsObject.Obj InlineObject)
    (acc : string * option string) (el : ParagraphElement)
    : string * option string :=
  match runContent el with
  | Some c => (fst acc +++ c, snd acc)
  | None =>
      match inlineObjectElement el with
      | Some ioe =>
          match inlineUri inlineObjects (inlineObjectId ioe) with
          | Some uri => if negb (truthy (snd acc)) then (fst acc, uri) else acc
          | None => acc
          end
      | None => acc
      end
  end.

(** The body of the loop over [positionedObjectIds], lines 118-126. *)
Definition readPositioned (positionedObjects : JsObject.Obj PositionedObject)
    (imageUrl : option string) (objectId : string) : option string :=
  if negb (truthy imageUrl) then
    match positionedUri positionedObjects objectId with
    | Some uri => uri
    | None => imageUrl
    end
  else imageUrl.

(** Lines 129-132. *)
Definition styleOf (p : Paragraph) : string :=
  match paragraphStyle p with
  | Some ps =>
      match namedStyleType ps with
      | Some t => if isEmpty t then "NORMAL_TEXT" else t
      | None => "NORMAL_TEXT"
      end
  | None => "NORMAL_TEXT"
  end.

(** Lines 95-138: the line pushed for a paragraph. *)
Definition lineOf (inlineObjects : JsObject.Obj InlineObject)
    (positionedObjects : JsObject.Obj PositionedObject) (p : Paragraph) : Line :=
  let '(text, imageUrl) :=
    fold_left (readElement inlineObjects) (elements p) (EmptyString, None) in
  let imageUrl :=
    if negb (truthy imageUrl) then
      match positionedObjectIds p with
      | Some ids => fold_left (readPositioned positionedObjects) ids imageUrl
      | None => imageUrl
      end
    else imageUrl in
  mkLine (trim text) (styleOf p) imageUrl.

(** Lines 92-140: one line for each element that has a paragraph. *)
Definition extractLines (inlineObjects : JsObject.Obj InlineObject)
    (positionedObjects : JsObject.Obj PositionedObject)
    (contentArray : list StructuralElement) : list Line :=
  fold_left
    (fun lines element =>
       match paragraph element with
       | Some p => lines ++ [lineOf inlineObjects positionedObjects p]
       | None => lines
       end)
    contentArray [].

(** [o || {}] *)
Definition orEmpty {V : Type} (o : option (JsObject.Obj V)) : JsObject.Obj V :=
  match o with
  | Some x => x
  | None => []
  end.

(** [parseBodyContent] with its three parameters, lines 79-261: an
    absent content array gives the empty map. *)
Definition parseBodyContent (contentArray : option (list StructuralElement))
    (inlineObjects : option (JsObject.Obj InlineObject))
    (positionedObjects : option (JsObject.Obj PositionedObject)) : Metadata :=
  match contentArray with
  | None => []
  | Some c =>
      parseBodyContent
        (extractLines (orEmpty inlineObjects) (orEmpty positionedObjects) c)
  end.

Record Body : Type := mkBody {
  bodyContent : option (list StructuralElement)
}.

(** [tab.documentTab] with [tab.tabProperties.title]. *)
Record Tab : Type := mkTab {
  title : string;
  tabInlineObjects : option (JsObject.Obj InlineObject);
  tabPositionedObjects : option (JsObject.Obj PositionedObject);
  tabBody : Body
}.

Record Document : Type := mkDocument {
  inlineObjects : option (JsObject.Obj InlineObject);
  positionedObjects : option (JsObject.Obj PositionedObject);
  tabs : option (list Tab);
  body : Body
}.

(** What [Docs.Documents.get] does: it throws an error with a message or
    returns a document. *)
Inductive Response : Type :=
| Thrown (message : string)
| Returned (doc : Document).

(** The object [getMetadataContent] returns: [{ items: ... }] or
    [{ error: ... }]. *)
Inductive Result : Type :=
| Items (items : Metadata)
| Error (error : string).

(** [tabName || "Metadata"] *)
Definition targetTabName (tabName : option string) : string :=
  match tabName with
  | Some n => if isEmpty n then "Metadata" else n
  | None => "Metadata"
  end.

(** [a || b] on two optional tables. *)
Definition orElse {V : Type} (a b : option V) : option V :=
  match a with
  | Some _ => a
  | None => b
  end.

(** [getMetadataContent], lines 22-58, on the answer of the service. *)
Definition getMetadataContent (response : Response) (tabName : option string)
    : Result :=
  match response with
  | Thrown message => Error ("Error accessing tab: " +++ message)
  | Returned doc =>
      let rootInlineObjects := orEmpty (inlineObjects doc) in
      let rootPositionedObjects := orEmpty (positionedObjects doc) in
      match tabs doc with
      | None =>
          Items (parseBodyContent (bodyContent (body doc))
                   (Some rootInlineObjects) (Some rootPositionedObjects))
      | Some ts =>
          match find (fun tab => String.eqb (title tab) (targetTabName tabName)) ts with
          | None =>
              Error ("Tab named '" +++ targetTabName tabName +++ "' not found.")
          | Some metadataTab =>
              Items (parseBodyContent (bodyContent (tabBody metadataTab))
                       (orElse (tabInlineObjects metadataTab)
                               (Some rootInlineObjects))
                       (orElse (tabPositionedObjects metadataTab)
                               (Some rootPositionedObjects)))
          end
      end
  end.

(** [getTabList], lines 60-72: the titles, one for each tab. *)
Definition getTabList (response : Response) : list string :=
  match response with
  | Thrown _ => []
  | Returned doc =>
      match tabs doc with
      | None => []
      | Some ts => map title ts
      end
  end.

End Docs.

(** *** Notions for the host side *)

(** The paragraphs of a content array, in order. *)
Fixpoint paragraphsOf (contentArray : list Docs.StructuralElement)
    : list Docs.Paragraph :=
  match contentArray with
  | [] => []
  | element :: rest =>
      match Docs.paragraph element with
      | Some p => p :: paragraphsOf rest
      | None => paragraphsOf rest
      end
  end.

(** A value that is set, or [None]. *)
Definition present (o : option string) : option string :=
  if truthy o then o else None.

(** The first value of a list that is set. *)
Fixpoint firstSet (candidates : list (option string)) : option string :=
  match candidates with
  | [] => None
  | c :: rest => if truthy c then c else firstSet rest
  end.

(** The [contentUri]s of the inline objects of a paragraph that resolve
    to an image, in the order of the elements; an element with run text
    is no inline object reference. *)
Fixpoint inlineCandidates (inlineObjects : JsObject.Obj Docs.InlineObject)
    (els : list Docs.ParagraphElement) : list (option string) :=
  match els with
  | [] => []
  | el :: rest =>
      match Docs.runContent el, Docs.inlineObjectElement el with
      | None, Some ioe =>
          match Docs.inlineUri inlineObjects (Docs.inlineObjectId ioe) with
          | Some uri => uri :: inlineCandidates inlineObjects rest
          | None => inlineCandidates inlineObjects rest
          end
      | _, _ => inlineCandidates inlineObjects rest
      end
  end.

(** The [contentUri]s of the positioned objects of a paragraph that
    resolve to an image, in the order of the ids. *)
Fixpoint positionedCandidates
    (positionedObjects : JsObject.Obj Docs.PositionedObject)
    (ids : list string) : list (option string) :=
  match ids with
  | [] => []
  | objectId :: rest =>
      match Docs.positionedUri positionedObjects objectId with
      | Some uri => uri :: positionedCandidates positionedObjects rest
      | None => positionedCandidates positionedObjects rest
      end
  end.

(** The positioned object ids of a paragraph, none when the field is
    absent. *)
Definition positionedIds (p : Docs.Paragraph) : list string :=
  match Docs.positionedObjectIds p with
  | Some ids => ids
  | None => []
  end.

(** The run texts of a paragraph put together. *)
Fixpoint runText (els : list Docs.ParagraphElement) : string :=
  match els with
  | [] => EmptyString
  | el :: rest =>
      match Docs.runContent el with
      | Some c => c +++ runText rest
      | None => runText rest
      end
  end.

(** Sample host data: a table with one inline image and one positioned
    image, and a paragraph that refers to both. *)
Module HostSample.

Definition image (uri : string) : option Docs.ObjectProperties :=
  Some (Docs.mkObjectProperties
          (Some (Docs.mkEmbeddedObject
                   (Some (Docs.mkImageProperties (Some uri)))))).

Definition inlineTable : JsObject.Obj Docs.InlineObject :=
  [("kix.in1", Docs.mkInlineObject (image "https://img/inline"));
   ("kix.in2", Docs.mkInlineObject None)].

Definition positionedTable : JsObject.Obj Docs.PositionedObject :=
  [("kix.pos1", Docs.mkPositionedObject (image "https://img/anchored"))].

Definition run (t : string) : Docs.ParagraphElement :=
  Docs.mkParagraphElement (Some (Docs.mkTextRun (Some t))) None.

Definition inlineRef (objectId : string) : Docs.ParagraphElement :=
  Docs.mkParagraphElement None (Some (Docs.mkInlineObjectElement objectId)).

Definition styled (t : string) : option Docs.ParagraphStyle :=
  Some (Docs.mkParagraphStyle (Some t)).

(** " Gate " with a broken inline reference, a good one and an anchored
    image. *)
Definition pictureParagraph : Docs.Paragraph :=
  Docs.mkParagraph [run " Gate"; inlineRef "kix.in2"; inlineRef "kix.in1"; run " "]
    (Some ["kix.pos1"]) (styled "HEADING_1").

Definition plainParagraph (t : string) : Docs.Paragraph :=
  Docs.mkParagraph [run t] None None.

Definition element (p : Docs.Paragraph) : Docs.StructuralElement :=
  Docs.mkStructuralElement (Some p).

(** A section break or a table: an element without a paragraph. *)
Definition other : Docs.StructuralElement := Docs.mkStructuralElement None.

Definition content : list Docs.StructuralElement :=
  [other; element pictureParagraph; element (plainParagraph "the way in");
   element (plainParagraph "kind: door"); other].

Definition tab (t : string) (c : list Docs.StructuralElement) : Docs.Tab :=
  Docs.mkTab t None None (Docs.mkBody (Some c)).

Definition tabbed : Docs.Document :=
  Docs.mkDocument (Some inlineTable) (Some positionedTable)
    (Some [tab "Notes" []; tab "Metadata" content; tab "Metadata" []])
    (Docs.mkBody None).

Definition single : Docs.Document :=
  Docs.mkDocument (Some inlineTable) (Some positionedTable) None
    (Docs.mkBody (Some content)).

End HostSample.

(** *** Notions for the line loop *)

(** A blank line of normal text: the separator of line 218. *)
Definition separator (l : Line) : Prop :=
  headingMatch (style l) = None /\ blankLine l = true.

(** A line whose style is a heading style. *)
Definition headingLine (l : Line) : Prop := headingMatch (style l) <> None.

(** The map the line loop has built, its pending buffer flushed. *)
Definition flushed (st : ParseState) : Metadata := metadata (flush st).

(** *** Notions for the context extractor *)

(** An element and the elements above it, nearest first. *)
Fixpoint lineage (e : Element) : list Element :=
  match e with
  | mkElement _ _ _ parent =>
      e :: match parent with
           | Some p => lineage p
           | None => []
           end
  end.

(** Induction over an element and its parents. *)
Fixpoint Element_parent_ind (P : Element -> Prop)
    (top : forall id type txt, P (mkElement id type txt None))
    (under : forall id type txt p, P p -> P (mkElement id type txt (Some p)))
    (e : Element) : P e :=
  match e with
  | mkElement id type txt None => top id type txt
  | mkElement id type txt (Some p) =>
      under id type txt p (Element_parent_ind P top under p)
  end.

(** The siblings with content among the first hundred met from a block
    along a link, cut at the limit. *)
Definition neighbours (sibling : Element -> option Element) (limit : nat)
    (start : Element) : list Element :=
  firstn limit (filter contentful (chain sibling 100 start)).

(** The texts of blocks, each followed by a space. *)
Fixpoint spacedAfter (blocks : list Element) : string :=
  match blocks with
  | [] => EmptyString
  | b :: rest => getTextSafe (Some b) +++ " " +++ spacedAfter rest
  end.

(** The texts of blocks, each after a space. *)
Fixpoint spacedBefore (blocks : list Element) : string :=
  match blocks with
  | [] => EmptyString
  | b :: rest => " " +++ getTextSafe (Some b) +++ spacedBefore rest
  end.

(** [lookaround || 0] *)
Definition limitOf (lookaround : option nat) : nat :=
  match lookaround with
  | Some n => n
  | None => 0
  end.

(** [endBlock || startBlock] *)
Definition finishOf (core : Core) (start : Element) : Element :=
  match endBlock core with
  | Some e => e
  | None => start
  end.

(* ===================================================================== *)
(** ** Strings: facts used below *)
(* ===================================================================== *)

Lemma isEmpty_false (s : string) : isEmpty s = false <-> s <> EmptyString.
Proof. destruct s; simpl; split; congruence. Qed.

Lemma length_append (a b : string) :
  String.length (a +++ b) = String.length a + String.length b.
Proof. induction a; simpl; congruence. Qed.

Lemma split_nonempty (c : ascii) (s : string) : split c s <> [].
Proof.
  induction s as [|d r IH]; simpl; [discriminate|].
  destruct (Ascii.eqb d c); [discriminate|].
  destruct (split c r); discriminate.
Qed.

(** Splitting then joining on the same character gives the string back. *)
Lemma join_split (c : ascii) (s : string) :
  JsString.join (String c EmptyString) (split c s) = s.
Proof.
  induction s as [|d r IH]; simpl; [reflexivity|].
  destruct (Ascii.eqb_spec d c) as [->|Hne].
  - pose proof (split_nonempty c r) as Hn.
    destruct (split c r) as [|h t]; [congruence|].
    change (JsString.join (String c "") (EmptyString :: h :: t))
      with (String c (JsString.join (String c "") (h :: t))).
    now rewrite IH.
  - pose proof (split_nonempty c r) as Hn.
    destruct (split c r) as [|h t]; [congruence|].
    destruct t as [|h' t'].
    + simpl in *. now rewrite IH.
    + change (JsString.join (String c "") (String d h :: h' :: t'))
        with (String d (JsString.join (String c "") (h :: h' :: t'))).
      now rewrite IH.
Qed.

(** The first piece of a split ends at the first separator. *)
Lemma split_first (c : ascii) (a b : string) :
  includes c a = false ->
  split c (a +++ String c b) = a :: split c b.
Proof.
  induction a as [|d r IH]; simpl; intros H.
  - now rewrite Ascii.eqb_refl.
  - destruct (Ascii.eqb d c); [discriminate|].
    now rewrite (IH H).
Qed.

Lemma includes_append (c : ascii) (a b : string) :
  includes c (a +++ b) = includes c a || includes c b.
Proof.
  induction a as [|d r IH]; simpl; [reflexivity|].
  destruct (Ascii.eqb d c); simpl; auto.
Qed.

Lemma trimEnd_keeps_head (c : ascii) (r : string) :
  isWhiteSpace c = false -> isEmpty (trimEnd (String c r)) = false.
Proof.
  intros H. simpl. destruct (trimEnd r); [rewrite H|]; reflexivity.
Qed.

(** A string that starts with a character other than white space does not
    trim to the empty string. *)
Lemma trim_keeps_head (c : ascii) (r : string) :
  isWhiteSpace c = false -> isEmpty (trim (String c r)) = false.
Proof.
  intros H. unfold trim. simpl. rewrite H. now apply trimEnd_keeps_head.
Qed.

(* ===================================================================== *)
(** ** Objects: reading after writing *)
(* ===================================================================== *)

Section ObjectFacts.
Context {V : Type}.
Implicit Types (o : JsObject.Obj V) (k : string) (v : V).

Lemma get_adjust_same k f o :
  JsObject.get k (JsObject.adjust k f o) = option_map f (JsObject.get k o).
Proof.
  induction o as [|[k' v'] r IH]; simpl; [reflexivity|].
  destruct (String.eqb k' k) eqn:E; simpl; rewrite E; auto.
Qed.

Lemma get_adjust_other k k' f o :
  k' <> k -> JsObject.get k' (JsObject.adjust k f o) = JsObject.get k' o.
Proof.
  intros Hne. induction o as [|[k0 v0] r IH]; simpl; [reflexivity|].
  destruct (String.eqb_spec k0 k) as [->|Hk]; simpl.
  - destruct (String.eqb_spec k k'); congruence.
  - destruct (String.eqb k0 k'); auto.
Qed.

Lemma keys_adjust k f o : JsObject.keys (JsObject.adjust k f o) = JsObject.keys o.
Proof.
  induction o as [|[k' v'] r IH]; simpl; [reflexivity|].
  destruct (String.eqb k' k); simpl; [reflexivity|].
  f_equal. exact IH.
Qed.

Lemma get_app k o1 o2 :
  JsObject.get k (o1 ++ o2) =
  match JsObject.get k o1 with
  | Some v => Some v
  | None => JsObject.get k o2
  end.
Proof.
  induction o1 as [|[k' v'] r IH]; simpl; [reflexivity|].
  destruct (String.eqb k' k); auto.
Qed.

Lemma get_insertIndex_same n k v o :
  JsObject.arrayIndex k = Some n ->
  JsObject.get k (JsObject.insertIndex n k v o) = Some v.
Proof.
  intros Hk. induction o as [|[k' v'] r IH]; simpl.
  - now rewrite String.eqb_refl.
  - destruct (JsObject.arrayIndex k') as [n'|] eqn:E.
    + destruct (N.ltb_spec n' n) as [Hlt|Hge]; simpl.
      * destruct (String.eqb_spec k' k) as [->|_]; [|exact IH].
        rewrite Hk in E. injection E as <-. lia.
      * now rewrite String.eqb_refl.
    + simpl. now rewrite String.eqb_refl.
Qed.

Lemma get_insertIndex_other n k k' v o :
  k' <> k ->
  JsObject.get k' (JsObject.insertIndex n k v o) = JsObject.get k' o.
Proof.
  intros Hne. induction o as [|[k0 v0] r IH]; simpl.
  - destruct (String.eqb_spec k k'); congruence.
  - destruct (JsObject.arrayIndex k0) as [n'|].
    + destruct (n' <? n)%N; simpl.
      * destruct (String.eqb k0 k'); auto.
      * destruct (String.eqb_spec k k'); congruence.
    + simpl. destruct (String.eqb_spec k k'); congruence.
Qed.

(** [o[k] = v; o[k]] gives [v]. *)
Lemma get_set_same k v o : JsObject.get k (JsObject.set k v o) = Some v.
Proof.
  unfold JsObject.set, JsObject.has.
  destruct (JsObject.get k o) as [v0|] eqn:E.
  - rewrite get_adjust_same, E. reflexivity.
  - destruct (JsObject.arrayIndex k) as [n|] eqn:En.
    + now apply get_insertIndex_same.
    + rewrite get_app, E. simpl. now rewrite String.eqb_refl.
Qed.

(** Writing [k] leaves the other keys as they were. *)
Lemma get_set_other k k' v o :
  k' <> k -> JsObject.get k' (JsObject.set k v o) = JsObject.get k' o.
Proof.
  intros Hne. unfold JsObject.set.
  destruct (JsObject.has k o).
  - now apply get_adjust_other.
  - destruct (JsObject.arrayIndex k) as [n|].
    + now apply get_insertIndex_other.
    + rewrite get_app. simpl.
      destruct (String.eqb_spec k k'); [congruence|].
      destruct (JsObject.get k' o); reflexivity.
Qed.

(** A write to ["__proto__"] stores nothing. *)
Lemma assign_proto v o : JsObject.assign "__proto__" v o = o.
Proof. reflexivity. Qed.

(** A write to any other key is an ordinary write. *)
Lemma assign_ordinary k v o :
  k <> "__proto__" -> JsObject.assign k v o = JsObject.set k v o.
Proof.
  intros H. unfold JsObject.assign.
  now rewrite (proj2 (String.eqb_neq _ _) H).
Qed.

Lemma assign_cases k v o :
  JsObject.assign k v o = o \/ JsObject.assign k v o = JsObject.set k v o.
Proof.
  unfold JsObject.assign. destruct (String.eqb k "__proto__"); auto.
Qed.

Lemma get_in_keys k v o : JsObject.get k o = Some v -> In k (JsObject.keys o).
Proof.
  induction o as [|[k' v'] r IH]; simpl; [discriminate|].
  destruct (String.eqb_spec k' k); auto.
Qed.

Lemma in_keys_get k o : In k (JsObject.keys o) -> exists v, JsObject.get k o = Some v.
Proof.
  induction o as [|[k' v'] r IH]; simpl; [tauto|].
  intros [->|H].
  - rewrite String.eqb_refl. eauto.
  - destruct (String.eqb k' k); eauto.
Qed.

End ObjectFacts.

(* ===================================================================== *)
(** ** [processBuffer]: from a buffer to an entry *)
(* ===================================================================== *)

(** The shifted buffer is what is left after a run of leading lines that
    all have empty text and no image, and it does not start with one. *)
Lemma shiftLeading_split (buf : list Line) :
  exists lead,
    buf = lead ++ shiftLeading buf /\
    Forall (fun b => blankLine b = true) lead /\
    match shiftLeading buf with
    | [] => True
    | b0 :: _ => blankLine b0 = false
    end.
Proof.
  induction buf as [|b rest IH]; simpl.
  - exists []. auto.
  - destruct (blankLine b) eqn:E.
    + destruct IH as (lead & Heq & Hall & Hhd).
      exists (b :: lead). simpl. repeat split; auto. congruence.
    + exists []. simpl. auto.
Qed.

Lemma shiftLeading_keeps (b0 : Line) (rest : list Line) :
  blankLine b0 = false -> shiftLeading (b0 :: rest) = b0 :: rest.
Proof. intros H. simpl. now rewrite H. Qed.

(** What [processBuffer] does to [metadata], by the shape of the shifted
    buffer: nothing when it is empty or the name is empty, and otherwise
    the item of the buffer is written under the text of its first line. *)
Lemma processBuffer_cases (buf : list Line) (pathStr : string) (md : Metadata) :
  processBuffer buf pathStr md =
  match shiftLeading buf with
  | [] => md
  | b0 :: rest =>
      if isEmpty (text b0) then md
      else JsObject.assign (text b0) (buildItem (b0 :: rest) pathStr) md
  end.
Proof.
  unfold processBuffer, processShifted.
  destruct (shiftLeading buf) as [|b0 rest]; [reflexivity|].
  destruct (isEmpty (text b0)); reflexivity.
Qed.

(** The naming rule of the buffer-to-entry conversion (lines 143-195):
    leading lines with empty text and no image are discarded; an empty
    remainder gives no entry; otherwise the text of the first remaining
    line is the name, an empty name gives no entry, and a non-empty name
    keys the new item (the write to the name "__proto__" storing
    nothing). *)
Lemma processBuffer_name_rule (buf : list Line) (pathStr : string) (md : Metadata) :
  exists lead remaining,
    buf = lead ++ remaining /\
    Forall (fun b => isEmpty (text b) = true /\ truthy (imageUrl b) = false) lead /\
    match remaining with
    | [] => processBuffer buf pathStr md = md
    | b0 :: _ =>
        (isEmpty (text b0) = true /\ truthy (imageUrl b0) = false -> False) /\
        (text b0 = EmptyString -> processBuffer buf pathStr md = md) /\
        (text b0 <> EmptyString ->
         processBuffer buf pathStr md
           = JsObject.assign (text b0) (buildItem remaining pathStr) md /\
         (text b0 <> "__proto__" ->
          JsObject.get (text b0) (processBuffer buf pathStr md)
            = Some (buildItem remaining pathStr)) /\
         forall k, k <> text b0 ->
           JsObject.get k (processBuffer buf pathStr md) = JsObject.get k md)
    end.
Proof.
  destruct (shiftLeading_split buf) as (lead & Heq & Hall & Hhd).
  exists lead, (shiftLeading buf). split; [exact Heq|]. split.
  - eapply Forall_impl; [|exact Hall]. intros b Hb. unfold blankLine in Hb.
    apply andb_true_iff in Hb as [H1 H2]. split; [exact H1|].
    now apply negb_true_iff in H2.
  - rewrite processBuffer_cases.
    destruct (shiftLeading buf) as [|b0 rest]; [reflexivity|].
    split; [|split].
    + intros [H1 H2]. unfold blankLine in Hhd. rewrite H1, H2 in Hhd. discriminate.
    + intros ->. reflexivity.
    + intros Hne. apply isEmpty_false in Hne. rewrite Hne.
      split; [reflexivity|]. split.
      * intros Hp. rewrite assign_ordinary by exact Hp. apply get_set_same.
      * intros k Hk.
        destruct (assign_cases (text b0) (buildItem (b0 :: rest) pathStr) md)
          as [E|E]; rewrite E; [reflexivity|now apply get_set_other].
Qed.

(** The entry a flush stores: with a first line that is kept and has a
    name other than "__proto__", the item of the buffer is found under
    that name. *)
Lemma processBuffer_entry (b0 : Line) (rest : list Line) (pathStr : string)
    (md : Metadata) :
  blankLine b0 = false ->
  isEmpty (text b0) = false ->
  text b0 <> "__proto__" ->
  JsObject.get (text b0) (processBuffer (b0 :: rest) pathStr md)
    = Some (buildItem (b0 :: rest) pathStr).
Proof.
  intros Hb Hn Hp. rewrite processBuffer_cases, shiftLeading_keeps by exact Hb.
  rewrite Hn, assign_ordinary by exact Hp. apply get_set_same.
Qed.

Lemma buildItem_category (buf : list Line) (pathStr : string) :
  category (buildItem buf pathStr) = pathStr.
Proof.
  unfold buildItem. destruct (scanLines _ _ _). reflexivity.
Qed.

Lemma buildItem_description (buf : list Line) (pathStr : string) :
  description (buildItem buf pathStr) = descriptionOf buf.
Proof.
  unfold buildItem. destruct (scanLines _ _ _). reflexivity.
Qed.

Lemma buildItem_properties (buf : list Line) (pathStr : string) :
  properties (buildItem buf pathStr)
    = fst (scanLines (skipn (startIndex buf) buf) [] (headImage buf)).
Proof.
  unfold buildItem, startIndex. destruct (scanLines _ _ _). reflexivity.
Qed.

Lemma buildItem_image (buf : list Line) (pathStr : string) :
  itemImageUrl (buildItem buf pathStr)
    = snd (scanLines (skipn (startIndex buf) buf) [] (headImage buf)).
Proof.
  unfold buildItem, startIndex. destruct (scanLines _ _ _). reflexivity.
Qed.

(** The properties gathered by the scan do not depend on the image. *)
Lemma scanLines_props_image (rest : list Line) (props : JsObject.Obj string)
    (i1 i2 : option string) :
  fst (scanLines rest props i1) = fst (scanLines rest props i2).
Proof.
  revert props i1 i2. induction rest as [|b r IH]; intros; simpl; [reflexivity|].
  destruct (startsWith "_" (text b)); [reflexivity|]. apply IH.
Qed.

(** The scan of a list that has a stop marker in it gathers the
    properties of the lines before the marker. *)
Lemma scanLines_stop (pre : list Line) (m : Line) (post : list Line)
    (props : JsObject.Obj string) (img : option string) :
  startsWith "_" (text m) = true ->
  fst (scanLines (pre ++ m :: post) props img) = fst (scanLines pre props img).
Proof.
  intros Hm. revert props img.
  induction pre as [|b r IH]; intros; simpl.
  - rewrite Hm. reflexivity.
  - destruct (startsWith "_" (text b)); [reflexivity|]. apply IH.
Qed.

(** (C1) The copy of [processBuffer] at lines 486-536 breaks the naming
    rule on a buffer the line loop builds from an image-only paragraph
    followed by a text paragraph: it shifts the image line away (its
    loop tests the text alone), takes "Name" as the name and stores an
    entry.  By the rule only lines with empty text and no image are
    discarded, the image line stays first, the name is empty and no
    entry is produced, which is what the copy at lines 143-195 does. *)
Theorem earlier_processBuffer_discards_image_line :
  buffer (fold_left step Sample.imageThenName initialState)
    = Sample.imageThenName /\
  Earlier.shiftLeading Sample.imageThenName = [Sample.normal "Name"] /\
  Earlier.processBuffer Sample.imageThenName "" []
    = [("Name", mkItem "" [] "" None)] /\
  shiftLeading Sample.imageThenName = Sample.imageThenName /\
  processBuffer Sample.imageThenName "" [] = [].
Proof. repeat split. Qed.

(* ===================================================================== *)
(** ** The image of an entry *)
(* ===================================================================== *)

Lemma firstImage_app (l1 l2 : list Line) :
  firstImage (l1 ++ l2) =
  if truthy (firstImage l1) then firstImage l1 else firstImage l2.
Proof.
  induction l1 as [|b r IH]; simpl; [reflexivity|].
  destruct (truthy (imageUrl b)) eqn:E; [now rewrite E|exact IH].
Qed.

Lemma firstImage_falsy (l : list Line) :
  truthy (firstImage l) = false -> firstImage l = None.
Proof.
  induction l as [|b r IH]; simpl; [reflexivity|].
  destruct (truthy (imageUrl b)) eqn:E; [congruence|exact IH].
Qed.

Lemma headImage_firstImage (buf : list Line) :
  headImage buf = firstImage (firstn 2 buf).
Proof.
  destruct buf as [|b0 [|b1 r]]; simpl; [reflexivity| |].
  - destruct (truthy (imageUrl b0)); reflexivity.
  - destruct (truthy (imageUrl b0)) eqn:E0; simpl; [now rewrite E0|].
    destruct (truthy (imageUrl b1)); reflexivity.
Qed.

(** The image the scan ends with: the one it started with, or else the
    first one among the lines up to and including the stop marker. *)
Lemma scanLines_image (rest : list Line) (props : JsObject.Obj string)
    (img : option string) :
  snd (scanLines rest props img) =
  if truthy img then img
  else match firstImage (throughStop rest) with
       | Some u => Some u
       | None => img
       end.
Proof.
  revert props img. induction rest as [|b r IH]; intros props img; simpl.
  - destruct (truthy img); reflexivity.
  - destruct (truthy img) eqn:Ei; simpl.
    + destruct (startsWith "_" (text b)); simpl; [reflexivity|].
      rewrite IH, Ei. reflexivity.
    + destruct (truthy (imageUrl b)) eqn:Eb; simpl.
      * destruct (imageUrl b) as [u|] eqn:Eu; [|discriminate].
        destruct (startsWith "_" (text b)); simpl; rewrite ?Eu, ?Eb; [reflexivity|].
        rewrite IH. simpl in Eb. simpl. rewrite Eb. reflexivity.
      * destruct (startsWith "_" (text b)); simpl; [now rewrite Eb|].
        rewrite IH, Ei, Eb. reflexivity.
Qed.

(** The image of the item of a buffer is the first one met on the first
    line, the description line and the scanned lines through the stop
    marker. *)
Lemma buildItem_scannedImage (buf : list Line) (pathStr : string) :
  itemImageUrl (buildItem buf pathStr) = scannedImage buf.
Proof.
  rewrite buildItem_image, scanLines_image, headImage_firstImage.
  unfold scannedImage, startIndex, descriptionLine.
  destruct buf as [|b0 [|b1 r]].
  - reflexivity.
  - simpl. destruct (truthy (imageUrl b0)) eqn:E0; simpl; rewrite ?E0; reflexivity.
  - destruct (negb (isEmpty (descriptionOf (b0 :: b1 :: r)))) eqn:Ed.
    + change (firstn 1 (b0 :: b1 :: r) ++ [b1] ++ throughStop (skipn 2 (b0 :: b1 :: r)))
        with (firstn 2 (b0 :: b1 :: r) ++ throughStop r).
      rewrite firstImage_app. change (skipn 2 (b0 :: b1 :: r)) with r.
      destruct (truthy (firstImage (firstn 2 (b0 :: b1 :: r)))) eqn:E; [reflexivity|].
      rewrite (firstImage_falsy _ E). destruct (firstImage (throughStop r)); reflexivity.
    + change (skipn 1 (b0 :: b1 :: r)) with (b1 :: r).
      change (firstn 2 (b0 :: b1 :: r)) with [b0; b1].
      change (firstn 1 (b0 :: b1 :: r) ++ [] ++ throughStop (b1 :: r))
        with (b0 :: throughStop (b1 :: r)).
      simpl. destruct (truthy (imageUrl b0)) eqn:E0; simpl; rewrite ?E0; [reflexivity|].
      destruct (truthy (imageUrl b1)) eqn:E1; simpl; rewrite ?E1.
      * destruct (startsWith "_" (text b1)); simpl; rewrite E1; reflexivity.
      * destruct (startsWith "_" (text b1)); simpl; rewrite E1; [reflexivity|].
        destruct (firstImage (throughStop r)); reflexivity.
Qed.

(** (C4, as amended) For a flushed buffer with a name, the image of the
    item built from it is the first image met on the first line, then on
    the second line if it was taken as the description, then on the
    lines of the property scan in order, up to and including the first
    line that starts with an underscore: the stop marker is looked at
    for an image before the scan ends, and no line after it is.  That
    item is the entry stored under the name, unless the name is
    "__proto__", under which the write stores nothing. *)
Theorem image_resolution (buf : list Line) (b0 : Line) (rest : list Line)
    (pathStr : string) (md : Metadata) :
  shiftLeading buf = b0 :: rest ->
  isEmpty (text b0) = false ->
  itemImageUrl (buildItem (b0 :: rest) pathStr) = scannedImage (b0 :: rest) /\
  processBuffer buf pathStr md
    = JsObject.assign (text b0) (buildItem (b0 :: rest) pathStr) md /\
  (text b0 <> "__proto__" ->
   exists item,
     JsObject.get (text b0) (processBuffer buf pathStr md) = Some item /\
     itemImageUrl item = scannedImage (b0 :: rest)).
Proof.
  intros Hs Hn. split; [apply buildItem_scannedImage|].
  rewrite processBuffer_cases, Hs, Hn. split; [reflexivity|].
  intros Hp. exists (buildItem (b0 :: rest) pathStr). split.
  - rewrite assign_ordinary by exact Hp. apply get_set_same.
  - apply buildItem_scannedImage.
Qed.

Lemma image_resolution_witness :
  shiftLeading Sample.markedBuffer = Sample.normal "N" :: tl (tl Sample.markedBuffer) /\
  isEmpty (text (Sample.normal "N")) = false /\
  text (Sample.normal "N") <> "__proto__" /\
  exists item,
    JsObject.get "N" (processBuffer Sample.markedBuffer "" []) = Some item /\
    itemImageUrl item = Some "https://img/2".
Proof.
  assert (Hp : text (Sample.normal "N") <> "__proto__") by discriminate.
  split; [reflexivity|]. split; [reflexivity|]. split; [exact Hp|].
  exact (proj2 (proj2 (image_resolution Sample.markedBuffer (Sample.normal "N")
                         (tl (tl Sample.markedBuffer)) "" [] eq_refl eq_refl)) Hp).
Defined.

(** (C4, as stated) The scan that does not look at the stop marker gives
    no image for a name line followed by a stop marker that carries an
    image, while the entry stored by [processBuffer] has that image. *)
Lemma image_resolution_skipping_marker_fails :
  buffer (fold_left step Sample.markerWithImage initialState)
    = Sample.markerWithImage /\
  exists item,
    JsObject.get "N" (processBuffer Sample.markerWithImage "" []) = Some item /\
    itemImageUrl item = Some "https://img/1" /\
    claimedImage Sample.markerWithImage = None /\
    itemImageUrl item <> claimedImage Sample.markerWithImage.
Proof.
  split; [reflexivity|].
  exists (mkItem "" [] "" (Some "https://img/1")).
  repeat split. discriminate.
Qed.

(* ===================================================================== *)
(** ** The properties of an entry *)
(* ===================================================================== *)

Lemma descriptionOf_stop_second (b0 m : Line) (post : list Line) :
  startsWith "_" (text m) = true -> descriptionOf (b0 :: m :: post) = EmptyString.
Proof.
  intros Hm. simpl. rewrite Hm, andb_false_r. reflexivity.
Qed.

(** (C5) In a flushed buffer with a name, a line of the property scan
    that starts with an underscore ends the collection: the properties
    of the item built from the buffer are those of the buffer cut before
    that line, whatever the lines after it are, so no line after the
    stop marker adds a property, with or without a colon.  That item is
    the entry stored under the name, unless the name is "__proto__",
    under which the write stores nothing. *)
Theorem stop_marker_halts_properties (buf : list Line) (b0 : Line)
    (pre : list Line) (m : Line) (post : list Line) (pathStr : string)
    (md : Metadata) :
  shiftLeading buf = b0 :: pre ++ m :: post ->
  isEmpty (text b0) = false ->
  startsWith "_" (text m) = true ->
  (forall post',
     properties (buildItem (b0 :: pre ++ m :: post') pathStr)
     = properties (buildItem (b0 :: pre) pathStr)) /\
  processBuffer buf pathStr md
    = JsObject.assign (text b0) (buildItem (b0 :: pre ++ m :: post) pathStr) md /\
  (text b0 <> "__proto__" ->
   exists item,
     JsObject.get (text b0) (processBuffer buf pathStr md) = Some item /\
     properties item = properties (buildItem (b0 :: pre) pathStr) /\
     forall post',
       properties item
       = properties (buildItem (b0 :: pre ++ m :: post') pathStr)).
Proof.
  intros Hs Hn Hm.
  assert (G : forall tail,
             properties (buildItem (b0 :: pre ++ m :: tail) pathStr)
             = properties (buildItem (b0 :: pre) pathStr)).
  { intros tail. rewrite !buildItem_properties. unfold startIndex.
    destruct pre as [|p pre'].
    - simpl app. rewrite (descriptionOf_stop_second b0 m tail Hm).
      simpl. rewrite Hm. reflexivity.
    - assert (Hd : descriptionOf (b0 :: (p :: pre') ++ m :: tail)
                   = descriptionOf (b0 :: p :: pre')) by reflexivity.
      rewrite Hd.
      destruct (negb (isEmpty (descriptionOf (b0 :: p :: pre')))).
      + change (skipn 2 (b0 :: (p :: pre') ++ m :: tail)) with (pre' ++ m :: tail).
        change (skipn 2 (b0 :: p :: pre')) with pre'.
        rewrite (scanLines_stop pre' m tail [] _ Hm).
        apply scanLines_props_image.
      + change (skipn 1 (b0 :: (p :: pre') ++ m :: tail))
          with ((p :: pre') ++ m :: tail).
        change (skipn 1 (b0 :: p :: pre')) with (p :: pre').
        rewrite (scanLines_stop (p :: pre') m tail [] _ Hm).
        apply scanLines_props_image. }
  split; [exact G|].
  rewrite processBuffer_cases, Hs, Hn. split; [reflexivity|].
  intros Hp.
  exists (buildItem (b0 :: pre ++ m :: post) pathStr). split; [|split].
  - rewrite assign_ordinary by exact Hp. apply get_set_same.
  - apply G.
  - intros post'. now rewrite !G.
Qed.

Lemma stop_marker_halts_properties_witness :
  shiftLeading Sample.markedBuffer
    = Sample.normal "N" :: [Sample.normal "about N"; Sample.normal "k: v"]
        ++ Sample.pictured "_end" "https://img/2"
           :: [Sample.pictured "late: x" "https://img/3"] /\
  isEmpty (text (Sample.normal "N")) = false /\
  startsWith "_" (text (Sample.pictured "_end" "https://img/2")) = true /\
  text (Sample.normal "N") <> "__proto__" /\
  exists item,
    JsObject.get "N" (processBuffer Sample.markedBuffer "" []) = Some item /\
    properties item = [("k", "v")] /\
    forall post',
      properties item
      = properties
          (buildItem
             (Sample.normal "N" :: [Sample.normal "about N"; Sample.normal "k: v"]
                ++ Sample.pictured "_end" "https://img/2" :: post') "").
Proof.
  assert (Hp : text (Sample.normal "N") <> "__proto__") by discriminate.
  split; [reflexivity|]. split; [reflexivity|]. split; [reflexivity|].
  split; [exact Hp|].
  exact (proj2 (proj2
           (stop_marker_halts_properties Sample.markedBuffer (Sample.normal "N")
              [Sample.normal "about N"; Sample.normal "k: v"]
              (Sample.pictured "_end" "https://img/2")
              [Sample.pictured "late: x" "https://img/3"] "" []
              eq_refl eq_refl eq_refl)) Hp).
Defined.

(** A line is split at its first colon: the key is what comes before it
    and the value everything after it, both trimmed; the pair is kept
    when neither is empty. *)
Lemma propertyOf_first_colon (a b : string) :
  includes ":" a = false ->
  propertyOf (a +++ ":" +++ b) =
  if negb (isEmpty (trim a)) && negb (isEmpty (trim b))
  then Some (trim a, trim b) else None.
Proof.
  intros Ha. unfold propertyOf.
  change (":" +++ b) with (String ":" b).
  rewrite includes_append, Ha. simpl includes. simpl orb.
  rewrite (split_first ":" a b Ha). simpl hd. simpl tl.
  now rewrite join_split.
Qed.

Lemma includes_split (c : ascii) (s : string) :
  includes c s = true ->
  exists a b, s = a +++ String c b /\ includes c a = false.
Proof.
  induction s as [|d r IH]; simpl; [discriminate|].
  destruct (Ascii.eqb_spec d c) as [->|Hne].
  - intros _. exists EmptyString, r. auto.
  - intros H. destruct (IH H) as (a & b & -> & Ha).
    exists (String d a), b. simpl. split; [reflexivity|].
    destruct (Ascii.eqb_spec d c); congruence.
Qed.

(** A recorded pair comes from a line with a colon, and its key and
    value are not empty. *)
Lemma propertyOf_some (line key val : string) :
  propertyOf line = Some (key, val) ->
  includes ":" line = true /\ key <> EmptyString /\ val <> EmptyString.
Proof.
  unfold propertyOf. destruct (includes ":" line); [|discriminate].
  destruct (negb (isEmpty (trim (hd EmptyString (split ":" line))))) eqn:Ek;
    [|discriminate].
  destruct (negb (isEmpty (trim (JsString.join ":" (tl (split ":" line)))))) eqn:Ev;
    [|discriminate].
  simpl. intros H. injection H as <- <-.
  apply negb_true_iff in Ek, Ev. apply isEmpty_false in Ek, Ev. auto.
Qed.

(** The scan of lines without a stop marker goes on into what follows. *)
Lemma scanLines_app (xs ys : list Line) (props : JsObject.Obj string)
    (img : option string) :
  Forall scanned xs ->
  scanLines (xs ++ ys) props img =
  scanLines ys (fst (scanLines xs props img)) (snd (scanLines xs props img)).
Proof.
  intros Hxs. revert props img.
  induction Hxs as [|b r Hb _ IH]; intros; simpl; [reflexivity|].
  unfold scanned in Hb. rewrite Hb. apply IH.
Qed.

(** Lines that do not set a key leave its value as it was. *)
Lemma scanLines_leaves_key (key : string) (ys : list Line)
    (props : JsObject.Obj string) (img : option string) :
  Forall (leavesKey key) ys ->
  JsObject.get key (fst (scanLines ys props img)) = JsObject.get key props.
Proof.
  intros Hys. revert props img.
  induction Hys as [|b r Hb _ IH]; intros; simpl; [reflexivity|].
  destruct (startsWith "_" (text b)); [reflexivity|].
  rewrite IH. destruct (propertyOf (text b)) as [[k v]|] eqn:E; [|reflexivity].
  apply get_set_other. intros ->. exact (Hb v E).
Qed.

(** (C6) A line of the property scan that contains a colon reads as a
    part without a colon, the first colon, and the rest; it is split at
    that first colon only, key and value are trimmed, and the pair is
    recorded exactly when both are non-empty; the scan of a line that is
    no stop marker stores the recorded pair and nothing else; the last
    line of the scan that sets a key decides its value; and the line
    "url: http://x:8080" gives the key "url" and the value
    "http://x:8080". *)
Theorem property_line_rule :
  (forall line : string,
     includes ":" line = true ->
     exists a b, line = a +++ ":" +++ b /\ includes ":" a = false) /\
  (forall a b : string,
     includes ":" a = false ->
     propertyOf (a +++ ":" +++ b) =
     if negb (isEmpty (trim a)) && negb (isEmpty (trim b))
     then Some (trim a, trim b) else None) /\
  (forall line key val,
     propertyOf line = Some (key, val) ->
     includes ":" line = true /\ key <> EmptyString /\ val <> EmptyString) /\
  (forall (l : Line) rest props img,
     scanned l ->
     fst (scanLines (l :: rest) props img) =
     fst (scanLines rest
            match propertyOf (text l) with
            | Some (key, val) => JsObject.set key val props
            | None => props
            end img)) /\
  (forall (xs : list Line) (l : Line) (ys : list Line) key val props img,
     Forall scanned xs -> scanned l ->
     propertyOf (text l) = Some (key, val) ->
     Forall (leavesKey key) ys ->
     JsObject.get key (fst (scanLines (xs ++ l :: ys) props img)) = Some val) /\
  propertyOf "url: http://x:8080" = Some ("url", "http://x:8080").
Proof.
  split; [exact (includes_split ":")|].
  split; [exact propertyOf_first_colon|].
  split; [exact propertyOf_some|].
  split; [|split; [|reflexivity]].
  - intros l rest props img Hl. simpl. unfold scanned in Hl. rewrite Hl.
    destruct (propertyOf (text l)) as [[k v]|]; apply scanLines_props_image.
  - intros xs l ys key val props img Hxs Hl Hp Hys.
    rewrite (scanLines_app xs (l :: ys) props img Hxs).
    simpl. unfold scanned in Hl. rewrite Hl, Hp.
    rewrite scanLines_leaves_key by exact Hys.
    apply get_set_same.
Qed.

Lemma property_line_rule_witness :
  (includes ":" "url" = false /\
   propertyOf ("url" +++ ":" +++ " http://x:8080")
     = Some ("url", "http://x:8080")) /\
  (Forall scanned [Sample.normal "k: old"] /\
   scanned (Sample.normal "k : new") /\
   propertyOf (text (Sample.normal "k : new")) = Some ("k", "new") /\
   Forall (leavesKey "k") [Sample.normal "other: 1"] /\
   JsObject.get "k"
     (fst (scanLines
             ([Sample.normal "k: old"] ++ Sample.normal "k : new"
                :: [Sample.normal "other: 1"])
             [] None)) = Some "new").
Proof.
  assert (Hxs : Forall scanned [Sample.normal "k: old"])
    by (repeat constructor).
  assert (Hl : scanned (Sample.normal "k : new")) by reflexivity.
  assert (Hys : Forall (leavesKey "k") [Sample.normal "other: 1"]).
  { repeat constructor. intros val H. vm_compute in H. discriminate. }
  split.
  - split; [reflexivity|].
    exact (proj1 (proj2 property_line_rule) "url" " http://x:8080" eq_refl).
  - repeat (split; [assumption || reflexivity|]).
    exact (proj1 (proj2 (proj2 (proj2 (proj2 property_line_rule))))
             [Sample.normal "k: old"] (Sample.normal "k : new")
             [Sample.normal "other: 1"]
             "k" "new" [] None Hxs Hl eq_refl Hys).
Defined.

(* ===================================================================== *)
(** ** The line loop: headings and categories *)
(* ===================================================================== *)

Lemma length_set (i : nat) (v : string) (a : JsArray.Arr) :
  List.length (JsArray.set i v a) = Nat.max (S i) (List.length a).
Proof.
  revert a. induction i as [|i IH]; intros [|x r]; simpl; rewrite ?IH; auto.
Qed.

Lemma nth_set_same (i : nat) (v : string) (a : JsArray.Arr) :
  nth i (JsArray.set i v a) None = Some v.
Proof.
  revert a. induction i as [|i IH]; intros [|x r]; simpl; auto.
Qed.

Lemma nth_set_other (i j : nat) (v : string) (a : JsArray.Arr) :
  j <> i -> nth j (JsArray.set i v a) None = nth j a None.
Proof.
  revert j a. induction i as [|i IH]; intros [|j] [|x r] Hne; simpl; auto;
    try congruence.
  - now destruct j.
  - rewrite IH by congruence. now destruct j.
Qed.

Lemma length_setLength (n : nat) (a : JsArray.Arr) :
  List.length (JsArray.setLength n a) = n.
Proof.
  unfold JsArray.setLength. rewrite length_app, length_firstn, repeat_length. lia.
Qed.

Lemma nth_setLength (n j : nat) (a : JsArray.Arr) :
  j < n -> nth j (JsArray.setLength n a) None = nth j a None.
Proof.
  intros Hj. unfold JsArray.setLength.
  destruct (Nat.lt_ge_cases j (List.length a)) as [Hl|Hl].
  - rewrite app_nth1 by (rewrite length_firstn; lia).
    now rewrite nth_firstn, (proj2 (Nat.ltb_lt j n) Hj).
  - rewrite (nth_overflow a) by lia.
    destruct (Nat.lt_ge_cases j (List.length (firstn n a))) as [Hf|Hf].
    + rewrite length_firstn in Hf. lia.
    + rewrite app_nth2 by lia. apply nth_repeat.
Qed.

(** Recording a title at level [L] leaves a stack of length [L], whose
    last element is the title and whose other elements are as before. *)
Lemma recordHeading_shape (L : nat) (t : string) (stack : JsArray.Arr) :
  List.length (recordHeading L t stack) = L /\
  (1 <= L -> nth (L - 1) (recordHeading L t stack) None = Some t) /\
  (forall j, j < L - 1 ->
     nth j (recordHeading L t stack) None = nth j stack None).
Proof.
  destruct L as [|i].
  - split; [apply length_setLength|]. split; intros; lia.
  - replace (S i - 1) with i by lia. unfold recordHeading.
    split; [apply length_setLength|]. split.
    + intros _. rewrite nth_setLength by lia. apply nth_set_same.
    + intros j Hj. rewrite nth_setLength by lia. apply nth_set_other. lia.
Qed.

Lemma flush_buffer (st : ParseState) : buffer (flush st) = [].
Proof. unfold flush. destruct (buffer st) eqn:E; [exact E|reflexivity]. Qed.

Lemma flush_headingStack (st : ParseState) :
  headingStack (flush st) = headingStack st.
Proof. unfold flush. destruct (buffer st); reflexivity. Qed.

Lemma flush_metadata (st : ParseState) :
  metadata (flush st) =
  match buffer st with
  | [] => metadata st
  | _ :: _ => processBuffer (buffer st) (currentPath st) (metadata st)
  end.
Proof. unfold flush. destruct (buffer st); reflexivity. Qed.

(** The step at a heading line. *)
Lemma step_heading (st : ParseState) (h : Line) (L : nat) :
  headingMatch (style h) = Some L ->
  step st h =
  mkState (metadata (flush st)) [h]
          (recordHeading L (text h) (headingStack st))
          (JsArray.join " > " (ancestors L (headingStack st))).
Proof.
  intros H. unfold step. rewrite H, flush_buffer, flush_headingStack. reflexivity.
Qed.

(** Plain lines after a line already buffered are appended; the stack and
    the path stay. *)
Lemma run_plain (body : list Line) (st : ParseState) :
  Forall plain body ->
  buffer st <> [] ->
  fold_left step body st =
  mkState (metadata st) (buffer st ++ body) (headingStack st) (currentPath st).
Proof.
  intros Hb. revert st. induction Hb as [|l r [Hh Hl] _ IH]; intros st Hne.
  - simpl. rewrite app_nil_r. now destruct st.
  - simpl fold_left.
    assert (Hs : step st l = mkState (metadata st) (buffer st ++ [l])
                               (headingStack st) (currentPath st)).
    { unfold step. rewrite Hh, Hl. destruct (buffer st); [congruence|reflexivity]. }
    rewrite Hs, IH; simpl.
    + now rewrite <- app_assoc.
    + destruct (buffer st); discriminate.
Qed.

(** Every boundary flushes the pending buffer before anything else. *)
Lemma step_boundary_metadata (st : ParseState) (b : Line) :
  boundary b -> metadata (step st b) = metadata (flush st).
Proof.
  intros Hb. unfold step.
  destruct (headingMatch (style b)) as [L|] eqn:E; [reflexivity|].
  destruct Hb as [Hb|Hb]; [congruence|]. now rewrite Hb.
Qed.

(** (C2, as amended) A heading line at level [L >= 1], followed by any
    plain lines, leaves the loop with the path set to the titles of
    levels 1 to L-1 of the heading stack joined with " > " (the
    ancestors of the heading, not the heading itself), with the heading
    and those lines as the pending buffer, and with a stack of length
    [L] that holds the title at level [L] and the earlier titles below
    it; the next boundary, or the end of the input, flushes that buffer
    with that path, so the entry of a heading with a title (other than
    "__proto__", under which the write stores nothing) has the
    ancestors' path as its category.  For H1 "A", H2 "B", a plain "x"
    and then H1 "C", the entry "B" has category "A" and the entry of "C"
    itself has the empty category, also when a line "y" right under "C"
    gives it a description; an entry under "C", a sub-heading "D" or a
    line "e" after a blank line, has the category "C". *)
Theorem heading_category :
  (forall (st : ParseState) (h : Line) (L : nat) (body : list Line),
     headingMatch (style h) = Some L ->
     1 <= L ->
     Forall plain body ->
     let parentPath := JsArray.join " > " (firstn (L - 1) (headingStack st)) in
     let st' := fold_left step (h :: body) st in
     currentPath st' = parentPath /\
     buffer st' = h :: body /\
     List.length (headingStack st') = L /\
     nth (L - 1) (headingStack st') None = Some (text h) /\
     (forall j, j < L - 1 ->
        nth j (headingStack st') None = nth j (headingStack st) None) /\
     metadata (flush st')
       = processBuffer (h :: body) parentPath (metadata (flush st)) /\
     (forall b, boundary b -> metadata (step st' b) = metadata (flush st')) /\
     (blankLine h = false -> isEmpty (text h) = false ->
      text h <> "__proto__" ->
      exists item,
        JsObject.get (text h) (metadata (flush st')) = Some item /\
        category item = parentPath)) /\
  option_map category (JsObject.get "B" (parseBodyContent Sample.nesting))
    = Some "A" /\
  option_map category (JsObject.get "C" (parseBodyContent Sample.nesting))
    = Some "" /\
  JsObject.get "C" (parseBodyContent (Sample.nesting ++ [Sample.normal "y"]))
    = Some (mkItem "y" [] "" None) /\
  option_map category
    (JsObject.get "D" (parseBodyContent (Sample.nesting ++ [Sample.heading "2" "D"])))
    = Some "C" /\
  option_map category
    (JsObject.get "e"
       (parseBodyContent (Sample.nesting ++ [Sample.normal ""; Sample.normal "e"])))
    = Some "C".
Proof.
  split; [|repeat split].
  intros st h L body Hh HL Hbody parentPath st'.
  assert (Hst : st' = mkState (metadata (flush st)) (h :: body)
                        (recordHeading L (text h) (headingStack st)) parentPath).
  { unfold st'. simpl fold_left. rewrite (step_heading st h L Hh).
    rewrite run_plain; [|exact Hbody|discriminate]. simpl.
    unfold parentPath. destruct L as [|i]; [lia|].
    simpl. now rewrite Nat.sub_0_r. }
  destruct (recordHeading_shape L (text h) (headingStack st)) as (H1 & H2 & H3).
  assert (Hf : metadata (flush st')
               = processBuffer (h :: body) parentPath (metadata (flush st)))
    by (rewrite Hst; reflexivity).
  split; [now rewrite Hst|]. split; [now rewrite Hst|].
  split; [now rewrite Hst|]. split; [rewrite Hst; now apply H2|].
  split; [rewrite Hst; exact H3|]. split; [exact Hf|].
  split; [intros b Hb; now apply step_boundary_metadata|].
  intros Hb Hn Hp. exists (buildItem (h :: body) parentPath). split.
  - rewrite Hf. now apply processBuffer_entry.
  - apply buildItem_category.
Qed.

(** (C2, as stated) After H1 "A", H2 "B", a plain "x" and H1 "C", the
    entries under "C" do not have the empty category: a sub-heading "D"
    and a line "e" after a blank line both get the category "C"; the
    empty category is that of the entry "C" itself. *)
Lemma entry_under_heading_has_its_title :
  (exists item,
     JsObject.get "D"
       (parseBodyContent (Sample.nesting ++ [Sample.heading "2" "D"]))
       = Some item /\
     category item = "C" /\ category item <> "") /\
  (exists item,
     JsObject.get "e"
       (parseBodyContent (Sample.nesting ++ [Sample.normal ""; Sample.normal "e"]))
       = Some item /\
     category item = "C" /\ category item <> "").
Proof.
  split.
  - exists (mkItem "" [] "C" None). repeat split. discriminate.
  - exists (mkItem "" [] "C" None). repeat split. discriminate.
Qed.

Lemma heading_category_witness :
  headingMatch (style (Sample.heading "2" "B")) = Some 2 /\
  1 <= 2 /\
  Forall plain [Sample.normal "x"] /\
  blankLine (Sample.heading "2" "B") = false /\
  isEmpty (text (Sample.heading "2" "B")) = false /\
  text (Sample.heading "2" "B") <> "__proto__" /\
  currentPath
    (fold_left step (Sample.heading "2" "B" :: [Sample.normal "x"])
       (step initialState (Sample.heading "1" "A"))) = "A" /\
  exists item,
    JsObject.get "B"
      (metadata
         (flush
            (fold_left step (Sample.heading "2" "B" :: [Sample.normal "x"])
               (step initialState (Sample.heading "1" "A"))))) = Some item /\
    category item = "A".
Proof.
  assert (Hp : Forall plain [Sample.normal "x"]).
  { repeat constructor. }
  assert (HL : 1 <= 2) by lia.
  pose proof (proj1 heading_category
                (step initialState (Sample.heading "1" "A"))
                (Sample.heading "2" "B") 2 [Sample.normal "x"]
                eq_refl HL Hp) as H.
  cbv zeta in H.
  destruct H as (H1 & _ & _ & _ & _ & _ & _ & H8).
  assert (Hn : text (Sample.heading "2" "B") <> "__proto__") by discriminate.
  split; [reflexivity|]. split; [exact HL|]. split; [exact Hp|].
  split; [reflexivity|]. split; [reflexivity|]. split; [exact Hn|].
  split; [exact H1|].
  exact (H8 eq_refl eq_refl Hn).
Defined.

(* ===================================================================== *)
(** ** The names of the entries the parser stores *)
(* ===================================================================== *)

Lemma set_named (k : string) (item : Item) (m : Metadata) :
  k <> EmptyString -> named m -> named (JsObject.set k item m).
Proof.
  intros Hk Hm x Hx. destruct (string_dec x k) as [->|Hne]; [exact Hk|].
  apply Hm. apply in_keys_get in Hx as [v Hv].
  rewrite get_set_other in Hv by exact Hne. eapply get_in_keys, Hv.
Qed.

Lemma processBuffer_named (buf : list Line) (pathStr : string) (m : Metadata) :
  named m -> named (processBuffer buf pathStr m).
Proof.
  intros Hm. rewrite processBuffer_cases.
  destruct (shiftLeading buf) as [|b0 rest]; [exact Hm|].
  destruct (isEmpty (text b0)) eqn:E; [exact Hm|].
  destruct (assign_cases (text b0) (buildItem (b0 :: rest) pathStr) m) as [A|A];
    rewrite A; [exact Hm|].
  apply set_named; [|exact Hm]. now apply isEmpty_false.
Qed.

Lemma flush_named (st : ParseState) : named (metadata st) -> named (metadata (flush st)).
Proof.
  intros H. rewrite flush_metadata. destruct (buffer st); [exact H|].
  now apply processBuffer_named.
Qed.

Lemma step_named (st : ParseState) (l : Line) :
  named (metadata st) -> named (metadata (step st l)).
Proof.
  intros H. unfold step. destruct (headingMatch (style l)).
  - now apply flush_named.
  - destruct (blankLine l); [now apply flush_named|exact H].
Qed.

(** Every key of the map the line loop builds is a non-empty name. *)
Lemma collect_named (lines : list Line) : named (collect lines).
Proof.
  assert (H : forall st, named (metadata st) ->
                         named (metadata (fold_left step lines st))).
  { induction lines as [|l r IH]; intros st Hst; [exact Hst|].
    simpl. apply IH. now apply step_named. }
  unfold collect. apply flush_named, H. intros k [].
Qed.

(* ===================================================================== *)
(** ** The backfill pass *)
(* ===================================================================== *)

Section AdjustFacts.
Context {V : Type}.
Implicit Types (o : JsObject.Obj V) (k : string) (f g : V -> V).

Lemma adjust_ext k f g o :
  (forall v, JsObject.get k o = Some v -> f v = g v) ->
  JsObject.adjust k f o = JsObject.adjust k g o.
Proof.
  induction o as [|[k' v'] r IH]; simpl; intros H; [reflexivity|].
  destruct (String.eqb k' k) eqn:E.
  - now rewrite (H v' eq_refl).
  - f_equal. apply IH. exact H.
Qed.

Lemma adjust_id k f o :
  (forall v, JsObject.get k o = Some v -> f v = v) ->
  JsObject.adjust k f o = o.
Proof.
  induction o as [|[k' v'] r IH]; simpl; intros H; [reflexivity|].
  destruct (String.eqb k' k) eqn:E.
  - now rewrite (H v' eq_refl).
  - f_equal. apply IH. exact H.
Qed.

Lemma adjust_twice k f o :
  (forall v, f (f v) = f v) ->
  JsObject.adjust k f (JsObject.adjust k f o) = JsObject.adjust k f o.
Proof.
  intros Hf. induction o as [|[k' v'] r IH]; simpl; [reflexivity|].
  destruct (String.eqb k' k) eqn:E; simpl; rewrite E.
  - now rewrite Hf.
  - now rewrite IH.
Qed.

Lemma adjust_comm k1 k2 f g o :
  k1 <> k2 ->
  JsObject.adjust k1 f (JsObject.adjust k2 g o)
  = JsObject.adjust k2 g (JsObject.adjust k1 f o).
Proof.
  intros Hne. induction o as [|[k' v'] r IH]; simpl; [reflexivity|].
  destruct (String.eqb k' k2) eqn:E2; destruct (String.eqb k' k1) eqn:E1;
    simpl; rewrite ?E1, ?E2; try reflexivity.
  - apply String.eqb_eq in E1, E2. congruence.
  - now rewrite IH.
Qed.

End AdjustFacts.

Lemma keys_categories (m : Metadata) : JsObject.keys m = map fst (categories m).
Proof.
  unfold JsObject.keys, categories. rewrite map_map. reflexivity.
Qed.

Lemma category_categories (m1 m2 : Metadata) (k : string) :
  categories m1 = categories m2 ->
  option_map category (JsObject.get k m1) = option_map category (JsObject.get k m2).
Proof.
  revert m2. induction m1 as [|[k1 v1] r1 IH]; intros [|[k2 v2] r2]; simpl;
    try discriminate; [reflexivity|].
  intros H. injection H as -> Hc Hr.
  destruct (String.eqb k2 k); simpl; [now rewrite Hc|]. now apply IH.
Qed.

(** The children found for a category depend on the keys and categories
    of the map alone. *)
Lemma childrenOf_categories (m1 m2 : Metadata) (expected : string) :
  categories m1 = categories m2 ->
  childrenOf m1 expected = childrenOf m2 expected.
Proof.
  intros H. unfold childrenOf. rewrite !keys_categories, H.
  apply filter_ext. intros k.
  pose proof (category_categories m1 m2 k H) as Hk.
  destruct (JsObject.get k m1), (JsObject.get k m2); simpl in Hk;
    try discriminate; [|reflexivity].
  injection Hk as ->. reflexivity.
Qed.

Lemma fillItem_categories (m1 m2 : Metadata) (k : string) (item : Item) :
  categories m1 = categories m2 -> fillItem m1 k item = fillItem m2 k item.
Proof.
  intros H. unfold fillItem. now rewrite (childrenOf_categories m1 m2 _ H).
Qed.

Lemma fillItem_category (m : Metadata) (k : string) (item : Item) :
  category (fillItem m k item) = category item.
Proof.
  unfold fillItem. destruct (blankDescription item); [|reflexivity].
  destruct (0 <? _)%nat; reflexivity.
Qed.

Lemma fillItem_frame (m : Metadata) (k : string) (item : Item) :
  setDescription EmptyString (fillItem m k item) = setDescription EmptyString item.
Proof.
  unfold fillItem. destruct (blankDescription item); [|reflexivity].
  destruct (0 <? _)%nat; reflexivity.
Qed.

(** A description written by the pass is not blank. *)
Lemma entries_not_blank (names : string) (item : Item) :
  blankDescription (setDescription ("Entries: " +++ names) item) = false.
Proof.
  unfold blankDescription, setDescription. simpl description.
  change ("Entries: " +++ names) with (String "E" ("ntries: " +++ names)).
  rewrite trim_keeps_head by reflexivity. reflexivity.
Qed.

(** Filling an item a second time changes nothing. *)
Lemma fillItem_twice (m : Metadata) (k : string) (item : Item) :
  fillItem m k (fillItem m k item) = fillItem m k item.
Proof.
  assert (H : fillItem m k item = item \/
              exists names, fillItem m k item = setDescription ("Entries: " +++ names) item).
  { unfold fillItem. destruct (blankDescription item); [|now left].
    destruct (0 <? _)%nat; [right; eauto|now left]. }
  destruct H as [H|[names H]].
  - now rewrite H at 1.
  - rewrite H. unfold fillItem at 1. now rewrite entries_not_blank.
Qed.

Lemma categories_adjust (k : string) (f : Item -> Item) (m : Metadata) :
  (forall item, category (f item) = category item) ->
  categories (JsObject.adjust k f m) = categories m.
Proof.
  intros Hf. induction m as [|[k' v'] r IH]; simpl; [reflexivity|].
  destruct (String.eqb k' k); simpl; [now rewrite Hf|]. now rewrite IH.
Qed.

Lemma frame_adjust (k : string) (f : Item -> Item) (m : Metadata) :
  (forall item, setDescription EmptyString (f item) = setDescription EmptyString item) ->
  frame (JsObject.adjust k f m) = frame m.
Proof.
  intros Hf. induction m as [|[k' v'] r IH]; simpl; [reflexivity|].
  destruct (String.eqb k' k); simpl; [now rewrite Hf|]. now rewrite IH.
Qed.

(** One turn of the outer loop rewrites the item under [parentName] as
    [fillItem] says. *)
Lemma backfillStep_adjust (m : Metadata) (parentName : string) :
  backfillStep m parentName = JsObject.adjust parentName (fillItem m parentName) m.
Proof.
  unfold backfillStep.
  destruct (JsObject.get parentName m) as [item|] eqn:E.
  - destruct (blankDescription item) eqn:Eb.
    + destruct (0 <? _)%nat eqn:Ec.
      * apply adjust_ext. intros v Hv. rewrite E in Hv. injection Hv as <-.
        unfold fillItem. now rewrite Eb, Ec.
      * symmetry. apply adjust_id. intros v Hv. rewrite E in Hv.
        injection Hv as <-. unfold fillItem. now rewrite Eb, Ec.
    + symmetry. apply adjust_id. intros v Hv. rewrite E in Hv.
      injection Hv as <-. unfold fillItem. now rewrite Eb.
  - symmetry. apply adjust_id. intros v Hv. congruence.
Qed.

Lemma backfill_fold (m0 : Metadata) (ks : list string) (m : Metadata) :
  categories m = categories m0 ->
  fold_left backfillStep ks m = fillAll m0 ks m.
Proof.
  revert m. induction ks as [|k r IH]; intros m Hc; simpl; [reflexivity|].
  rewrite backfillStep_adjust.
  rewrite (adjust_ext k (fillItem m k) (fillItem m0 k))
    by (intros; now apply fillItem_categories).
  apply IH. rewrite categories_adjust; [exact Hc|]. apply fillItem_category.
Qed.

Lemma backfill_fillAll (m : Metadata) :
  backfill m = fillAll m (JsObject.keys m) m.
Proof. unfold backfill. now apply backfill_fold. Qed.

Lemma fillAll_categories (m0 : Metadata) (ks : list string) (m : Metadata) :
  categories (fillAll m0 ks m) = categories m.
Proof.
  revert m. induction ks as [|k r IH]; intros m; simpl; [reflexivity|].
  unfold fillAll in *. simpl. rewrite IH.
  apply categories_adjust. apply fillItem_category.
Qed.

Lemma fillAll_frame (m0 : Metadata) (ks : list string) (m : Metadata) :
  frame (fillAll m0 ks m) = frame m.
Proof.
  revert m. induction ks as [|k r IH]; intros m; simpl; [reflexivity|].
  unfold fillAll in *. simpl. rewrite IH.
  apply frame_adjust. apply fillItem_frame.
Qed.

Lemma fillAll_keys (m0 : Metadata) (ks : list string) (m : Metadata) :
  JsObject.keys (fillAll m0 ks m) = JsObject.keys m.
Proof.
  rewrite !keys_categories. now rewrite fillAll_categories.
Qed.

Lemma fillAll_commute (m0 : Metadata) (ks : list string) (k : string) (m : Metadata) :
  JsObject.adjust k (fillItem m0 k) (fillAll m0 ks m)
  = fillAll m0 ks (JsObject.adjust k (fillItem m0 k) m).
Proof.
  revert m. induction ks as [|a r IH]; intros m; [reflexivity|].
  unfold fillAll in *. simpl. rewrite IH. f_equal.
  destruct (string_dec k a) as [->|Hne]; [reflexivity|].
  now apply adjust_comm.
Qed.

Lemma fillAll_absorbs (m0 : Metadata) (ks : list string) (k : string) (m : Metadata) :
  In k ks ->
  JsObject.adjust k (fillItem m0 k) (fillAll m0 ks m) = fillAll m0 ks m.
Proof.
  revert m. induction ks as [|a r IH]; intros m Hin; [destruct Hin|].
  destruct (string_dec a k) as [->|Hne].
  - rewrite fillAll_commute. unfold fillAll. simpl.
    rewrite adjust_twice; [reflexivity|]. apply fillItem_twice.
  - destruct Hin as [|Hin]; [congruence|].
    change (fillAll m0 (a :: r) m)
      with (fillAll m0 r (JsObject.adjust a (fillItem m0 a) m)).
    now apply IH.
Qed.

Lemma fillAll_again (m0 : Metadata) (ks' ks : list string) (m : Metadata) :
  incl ks' ks ->
  fillAll m0 ks' (fillAll m0 ks m) = fillAll m0 ks m.
Proof.
  induction ks' as [|k r IH]; intros Hi; [reflexivity|].
  change (fillAll m0 (k :: r) (fillAll m0 ks m))
    with (fillAll m0 r (JsObject.adjust k (fillItem m0 k) (fillAll m0 ks m))).
  rewrite fillAll_absorbs by (apply Hi; now left).
  apply IH. intros x Hx. apply Hi. now right.
Qed.

(** (C7) The backfill pass is idempotent: on every map, a second pass
    gives the map the first pass gave. *)
Theorem backfill_idempotent (m : Metadata) :
  backfill (backfill m) = backfill m.
Proof.
  rewrite (backfill_fillAll (backfill m)).
  rewrite (backfill_fillAll m) at 2 3 4.
  rewrite fillAll_keys.
  assert (Hc : categories (backfill m) = categories m)
    by (rewrite backfill_fillAll; apply fillAll_categories).
  assert (He : forall ks x, fillAll (backfill m) ks x = fillAll m ks x).
  { induction ks as [|k r IH]; intros x; [reflexivity|].
    unfold fillAll in *. simpl. rewrite IH. f_equal.
    apply adjust_ext. intros v _. now apply fillItem_categories. }
  rewrite He. rewrite <- backfill_fillAll.
  rewrite (backfill_fillAll m). apply fillAll_again. apply incl_refl.
Qed.

Lemma frame_get (m1 m2 : Metadata) (k : string) :
  frame m1 = frame m2 ->
  option_map (setDescription EmptyString) (JsObject.get k m1)
  = option_map (setDescription EmptyString) (JsObject.get k m2).
Proof.
  revert m2. induction m1 as [|[k1 v1] r1 IH]; intros [|[k2 v2] r2]; simpl;
    try discriminate; [reflexivity|].
  intros H. fold (frame r1) (frame r2) in H. simpl fst in H. simpl snd in H.
  assert (Hk : k1 = k2) by congruence.
  assert (Hv : setDescription EmptyString v1 = setDescription EmptyString v2)
    by congruence.
  assert (Hr : frame r1 = frame r2) by congruence.
  subst k1. destruct (String.eqb k2 k); simpl; [now rewrite Hv|]. now apply IH.
Qed.

(** (C9) The backfill pass changes nothing but descriptions: the keys of
    the map are the same, in the same order, before and after (nothing
    is added or removed); with the descriptions set aside the two maps
    are equal; and every entry is found again under its key with the
    properties, category and image it had. *)
Theorem backfill_changes_descriptions_only (m : Metadata) :
  JsObject.keys (backfill m) = JsObject.keys m /\
  frame (backfill m) = frame m /\
  (forall k, JsObject.get k (backfill m) = None <-> JsObject.get k m = None) /\
  (forall k item,
     JsObject.get k m = Some item ->
     exists item',
       JsObject.get k (backfill m) = Some item' /\
       properties item' = properties item /\
       category item' = category item /\
       itemImageUrl item' = itemImageUrl item).
Proof.
  assert (Hf : frame (backfill m) = frame m)
    by (rewrite backfill_fillAll; apply fillAll_frame).
  split; [rewrite backfill_fillAll; apply fillAll_keys|].
  split; [exact Hf|]. split.
  - intros k. pose proof (frame_get (backfill m) m k Hf) as H.
    destruct (JsObject.get k (backfill m)), (JsObject.get k m);
      simpl in H; try discriminate; split; congruence.
  - intros k item Hk. pose proof (frame_get (backfill m) m k Hf) as H.
    rewrite Hk in H. destruct (JsObject.get k (backfill m)) as [item'|];
      simpl in H; [|discriminate].
    exists item'. split; [reflexivity|].
    injection H as Hp Hc Hi. auto.
Qed.

Lemma backfill_changes_descriptions_only_witness :
  JsObject.get "A" Sample.family = Some (mkItem "" [] "" None) /\
  exists item',
    JsObject.get "A" (backfill Sample.family) = Some item' /\
    properties item' = [] /\
    category item' = "" /\
    itemImageUrl item' = None.
Proof.
  split; [reflexivity|].
  exact (proj2 (proj2 (proj2 (backfill_changes_descriptions_only Sample.family)))
           "A" (mkItem "" [] "" None) eq_refl).
Defined.

(** Reading the map after the pass: the entry under [n] is the one that
    was there, filled. *)
Lemma get_fillAll (m0 : Metadata) (ks : list string) (n : string) (m : Metadata) :
  JsObject.get n (fillAll m0 ks m) =
  if existsb (String.eqb n) ks
  then option_map (fillItem m0 n) (JsObject.get n m)
  else JsObject.get n m.
Proof.
  revert m. induction ks as [|k r IH]; intros m; [reflexivity|].
  change (fillAll m0 (k :: r) m)
    with (fillAll m0 r (JsObject.adjust k (fillItem m0 k) m)).
  rewrite IH. simpl existsb.
  destruct (String.eqb_spec n k) as [->|Hne]; simpl.
  - rewrite get_adjust_same.
    destruct (existsb (String.eqb k) r); [|reflexivity].
    destruct (JsObject.get k m); simpl; [|reflexivity].
    now rewrite fillItem_twice.
  - now rewrite get_adjust_other.
Qed.

Lemma get_backfill (m : Metadata) (n : string) :
  JsObject.get n (backfill m) = option_map (fillItem m n) (JsObject.get n m).
Proof.
  rewrite backfill_fillAll, get_fillAll.
  destruct (existsb (String.eqb n) (JsObject.keys m)) eqn:E; [reflexivity|].
  destruct (JsObject.get n m) as [item|] eqn:Hg; [|reflexivity].
  apply get_in_keys in Hg.
  assert (existsb (String.eqb n) (JsObject.keys m) = true).
  { apply existsb_exists. exists n. split; [exact Hg|apply String.eqb_refl]. }
  congruence.
Qed.

(** An entry with a name is never its own child. *)
Lemma not_own_child (n : string) (item : Item) :
  n <> EmptyString ->
  String.eqb (category item) (expectedChildCategory n item) = false.
Proof.
  intros Hn. apply String.eqb_neq. unfold expectedChildCategory.
  destruct (category item) as [|c r] eqn:E; simpl.
  - congruence.
  - intros H. apply (f_equal String.length) in H.
    simpl in H. injection H as H. rewrite length_append in H. simpl in H. lia.
Qed.

Lemma otherChildren_childrenOf (m : Metadata) (n : string) (item : Item) :
  n <> EmptyString ->
  JsObject.get n m = Some item ->
  otherChildren m n item = childrenOf m (expectedChildCategory n item).
Proof.
  intros Hn Hg. unfold otherChildren, childrenOf. apply filter_ext. intros c.
  destruct (String.eqb_spec c n) as [->|Hne]; simpl; [|reflexivity].
  rewrite Hg. symmetry. now apply not_own_child.
Qed.

(** (C3) After the backfill pass, an entry with a name whose description
    was empty or white space only, and for which some other entry has
    exactly its expected child category, has the description
    "Entries: " followed by the names of those entries, in the order of
    the keys of the map, joined with ", "; an entry whose description is
    not blank, or that has no such other entry, is as it was.  Every
    entry of the map the line loop hands to the pass has a name, so this
    holds for every entry [parseBodyContent] returns.  In the map
    {A, B under A, C under A} with A's description empty, the
    description of A becomes "Entries: B, C". *)
Theorem backfill_lists_children :
  (forall (m : Metadata) (n : string) (item : Item),
     JsObject.get n m = Some item ->
     n <> EmptyString ->
     (blankDescription item = true ->
      otherChildren m n item <> [] ->
      JsObject.get n (backfill m)
      = Some (setDescription
                ("Entries: " +++ JsString.join ", " (otherChildren m n item))
                item)) /\
     (blankDescription item = false \/ otherChildren m n item = [] ->
      JsObject.get n (backfill m) = Some item)) /\
  (forall (lines : list Line) (n : string) (item : Item),
     JsObject.get n (collect lines) = Some item ->
     (blankDescription item = true ->
      otherChildren (collect lines) n item <> [] ->
      JsObject.get n (parseBodyContent lines)
      = Some (setDescription
                ("Entries: "
                 +++ JsString.join ", " (otherChildren (collect lines) n item))
                item)) /\
     (blankDescription item = false \/ otherChildren (collect lines) n item = [] ->
      JsObject.get n (parseBodyContent lines) = Some item)) /\
  option_map description (JsObject.get "A" (backfill Sample.family))
    = Some "Entries: B, C".
Proof.
  assert (G : forall (m : Metadata) (n : string) (item : Item),
     JsObject.get n m = Some item ->
     n <> EmptyString ->
     (blankDescription item = true ->
      otherChildren m n item <> [] ->
      JsObject.get n (backfill m)
      = Some (setDescription
                ("Entries: " +++ JsString.join ", " (otherChildren m n item))
                item)) /\
     (blankDescription item = false \/ otherChildren m n item = [] ->
      JsObject.get n (backfill m) = Some item)).
  { intros m n item Hg Hn.
    rewrite get_backfill, Hg. simpl option_map.
    rewrite (otherChildren_childrenOf m n item Hn Hg). unfold fillItem. split.
    - intros Hb Hc. rewrite Hb.
      destruct (childrenOf m (expectedChildCategory n item)); [congruence|reflexivity].
    - intros [Hb|Hc]; [now rewrite Hb|].
      rewrite Hc. simpl. destruct (blankDescription item); reflexivity. }
  split; [exact G|]. split; [|reflexivity].
  intros lines n item Hg. apply G; [exact Hg|].
  apply (collect_named lines). eapply get_in_keys, Hg.
Qed.

Lemma backfill_lists_children_witness :
  JsObject.get "A" Sample.family = Some (mkItem "" [] "" None) /\
  "A" <> EmptyString /\
  blankDescription (mkItem "" [] "" None) = true /\
  otherChildren Sample.family "A" (mkItem "" [] "" None) <> [] /\
  JsObject.get "A" (backfill Sample.family)
    = Some (mkItem "Entries: B, C" [] "" None).
Proof.
  assert (Hn : "A" <> EmptyString) by discriminate.
  assert (Hc : otherChildren Sample.family "A" (mkItem "" [] "" None) <> [])
    by discriminate.
  repeat (split; [assumption || reflexivity|]).
  exact (proj1 (proj1 backfill_lists_children Sample.family "A"
                  (mkItem "" [] "" None) eq_refl Hn) eq_refl Hc).
Defined.

(** Every key of the map [parseBodyContent] returns is a non-empty name. *)
Lemma parseBodyContent_named (lines : list Line) : named (parseBodyContent lines).
Proof.
  unfold parseBodyContent, named.
  rewrite backfill_fillAll, fillAll_keys. apply collect_named.
Qed.

(* ===================================================================== *)
(** ** The sibling walks of the context extractor *)
(* ===================================================================== *)

Lemma last_cons {A : Type} (x : A) (l : list A) (d : A) :
  last (x :: l) d = last l x.
Proof.
  revert x d. induction l as [|a r IH]; intros x d; [reflexivity|].
  change (last (x :: a :: r) d) with (last (a :: r) d).
  now rewrite !IH.
Qed.

Section WalkFacts.

Variable sibling : Element -> option Element.
Variable add : string -> string -> string.
Variable limit : nat.

(** A walk that ends where it stands has visited nothing. *)
Ltac walk_stopped :=
  exists []; simpl; repeat split; try lia; auto;
  try (left; lia); try (right; left; lia).

(** The loop, unfolded once. *)
Lemma walk_body (w : Walk) :
  walk sibling add limit w =
  if (count w <? limit)%nat && (safety w <? 100)%nat then
    match sibling (curr w) with
    | None => w
    | Some c => walk sibling add limit (visit add c w)
    end
  else w.
Proof.
  rewrite walk_equation_1.
  destruct (count w <? limit)%nat; simp walk; [|reflexivity].
  destruct (lt_dec (safety w) 100) as [Hs|Hs]; simp walk.
  - rewrite (proj2 (Nat.ltb_lt _ _) Hs). simpl.
    destruct (sibling (curr w)); simp walk; reflexivity.
  - rewrite (proj2 (Nat.ltb_ge _ _)) by lia. reflexivity.
Qed.

Lemma visit_fields (c : Element) (w : Walk) :
  curr (visit add c w) = c /\
  safety (visit add c w) = S (safety w) /\
  count (visit add c w) = count w + List.length (filter contentful [c]) /\
  gathered (visit add c w)
    = fold_left (fun acc x => add (getTextSafe (Some x)) acc)
                (filter contentful [c]) (gathered w).
Proof.
  unfold visit. simpl filter. unfold contentful.
  destruct (hasContent (getTextSafe (Some c))); simpl; repeat split; lia.
Qed.

(** What a walk has done when it ends: it went through the siblings
    [visited], in the order of the chain, added the text of the ones
    that have content, counted them, and stopped for one of the three
    reasons the loop has; it did not go on once the limit was reached. *)
Lemma walk_spec (w : Walk) :
  safety w <= 100 ->
  count w <= limit ->
  exists visited,
    chain sibling (List.length visited) (curr w) = visited /\
    safety (walk sibling add limit w) = safety w + List.length visited /\
    safety (walk sibling add limit w) <= 100 /\
    count (walk sibling add limit w)
      = count w + List.length (filter contentful visited) /\
    count (walk sibling add limit w) <= limit /\
    gathered (walk sibling add limit w)
      = fold_left (fun acc x => add (getTextSafe (Some x)) acc)
                  (filter contentful visited) (gathered w) /\
    curr (walk sibling add limit w) = last visited (curr w) /\
    (count (walk sibling add limit w) = limit \/
     safety (walk sibling add limit w) = 100 \/
     sibling (curr (walk sibling add limit w)) = None) /\
    (visited = [] \/
     count w + List.length (filter contentful (removelast visited)) < limit).
Proof.
  remember (100 - safety w) as n eqn:Hn. revert w Hn.
  induction n as [|n IH]; intros w Hn Hs Hc; rewrite walk_body.
  - assert (E : (safety w <? 100)%nat = false) by (apply Nat.ltb_ge; lia).
    rewrite E, andb_false_r. walk_stopped.
  - destruct (count w <? limit)%nat eqn:Ec; simpl.
    2:{ apply Nat.ltb_ge in Ec. walk_stopped. }
    apply Nat.ltb_lt in Ec.
    assert (E : (safety w <? 100)%nat = true) by (apply Nat.ltb_lt; lia).
    rewrite E.
    destruct (sibling (curr w)) as [c|] eqn:Esib.
    2:{ walk_stopped. }
    destruct (visit_fields c w) as (Vc & Vs & Vn & Vg).
    destruct (IH (visit add c w)) as (visited & H1 & H2 & H3 & H4 & H5 & H6 & H7 & H8 & H9).
    + lia.
    + lia.
    + rewrite Vn. simpl. destruct (contentful c); simpl; lia.
    + exists (c :: visited).
      assert (Hf : forall l, filter contentful (c :: l)
                             = filter contentful [c] ++ filter contentful l).
      { intros l. simpl. destruct (contentful c); reflexivity. }
      split; [simpl; rewrite Esib; rewrite Vc in H1; now rewrite H1|].
      split; [rewrite H2, Vs; simpl; lia|].
      split; [exact H3|].
      split; [rewrite H4, Vn, (Hf visited), length_app; lia|].
      split; [exact H5|].
      split; [rewrite H6, Vg, (Hf visited), fold_left_app; reflexivity|].
      split; [rewrite H7, Vc, last_cons; reflexivity|].
      split; [exact H8|].
      right. destruct H9 as [->|H9]; [simpl; lia|].
      destruct visited as [|v r]; [simpl; lia|].
      change (removelast (c :: v :: r)) with (c :: removelast (v :: r)).
      rewrite (Hf (removelast (v :: r))), length_app. rewrite Vn in H9. lia.
Qed.

End WalkFacts.

(** (C8) Each of the two walks, started at a block, goes through a run
    of siblings along its link, at most 100 of them whatever the limit;
    it adds the text of the siblings whose trimmed text is not empty and
    counts those only, so that siblings with empty text are passed
    without counting against the limit; and it stops when the limit is
    reached, after 100 siblings, or when there is no further sibling.
    With the siblings "", "" and "hello" before the start block (nearest
    first) and limit 1, the backward walk passes all three and the prefix
    is "hello " . *)
Theorem walks_skip_empty_and_stop :
  (forall (sibling : Element -> option Element)
          (add : string -> string -> string) (limit : nat) (start : Element),
     exists visited,
       chain sibling (List.length visited) start = visited /\
       List.length visited <= 100 /\
       safety (walk sibling add limit (mkWalk start "" 0 0))
         = List.length visited /\
       count (walk sibling add limit (mkWalk start "" 0 0))
         = List.length (filter contentful visited) /\
       List.length (filter contentful visited) <= limit /\
       gathered (walk sibling add limit (mkWalk start "" 0 0))
         = fold_left (fun acc x => add (getTextSafe (Some x)) acc)
                     (filter contentful visited) "" /\
       (List.length (filter contentful visited) = limit \/
        List.length visited = 100 \/
        sibling (last visited start) = None) /\
       (visited = [] \/
        List.length (filter contentful (removelast visited)) < limit)) /\
  (forall doc limit start,
     lookBackwards doc limit start
     = walk (getPreviousSibling doc) (fun txt prefix => txt +++ " " +++ prefix)
            limit (mkWalk start "" 0 0) /\
     lookForwards doc limit start
     = walk (getNextSibling doc) (fun txt suffix => suffix +++ " " +++ txt)
            limit (mkWalk start "" 0 0)) /\
  chain Page.previous 3 Page.start
    = [Page.paragraph 2 ""; Page.paragraph 1 ""; Page.paragraph 0 "hello"] /\
  lookBackwards Page.document 1 Page.start
    = mkWalk (Page.paragraph 0 "hello") "hello " 1 3.
Proof.
  split; [|split; [|split]]; try reflexivity.
  - intros sibling add limit start.
    destruct (walk_spec sibling add limit (mkWalk start "" 0 0))
      as (visited & H1 & H2 & H3 & H4 & H5 & H6 & H7 & H8 & H9);
      simpl; try lia.
    simpl in *. exists visited.
    split; [exact H1|]. split; [lia|]. split; [exact H2|].
    split; [exact H4|]. split; [lia|]. split; [exact H6|].
    split; [|exact H9].
    rewrite H7 in H8. rewrite H4 in H8. rewrite H2 in H8. exact H8.
  - intros. split; reflexivity.
Qed.

Lemma walks_skip_empty_and_stop_witness :
  exists visited,
    chain Page.previous (List.length visited) Page.start = visited /\
    List.length visited <= 100 /\
    safety (lookBackwards Page.document 1 Page.start) = List.length visited /\
    count (lookBackwards Page.document 1 Page.start)
      = List.length (filter contentful visited) /\
    List.length (filter contentful visited) <= 1.
Proof.
  destruct (proj1 walks_skip_empty_and_stop Page.previous
              (fun txt prefix => txt +++ " " +++ prefix) 1 Page.start)
    as (visited & H1 & H2 & H3 & H4 & H5 & _).
  exists visited. repeat split; assumption.
Defined.

(* ===================================================================== *)
(** ** Selection and cursor *)
(* ===================================================================== *)

(** (C10) With a selection the context extractor works from the
    selection alone: the core text is the text of its range elements,
    the start and end blocks are the blocks of its first and last
    elements, and the result is the same whatever the cursor is, present
    or not; the cursor gives the core text and the blocks only when
    there is no selection. *)
Theorem selection_takes_precedence :
  (forall elements cursor prev next,
     captureCore (mkDocument (Some elements) cursor prev next)
     = mkCore (selectionText elements) (selectionStart elements)
              (selectionEnd elements)) /\
  (forall elements cursor cursor' prev next lookaround,
     getCurrentContext (mkDocument (Some elements) cursor prev next) lookaround
     = getCurrentContext (mkDocument (Some elements) cursor' prev next) lookaround) /\
  (forall element prev next,
     captureCore (mkDocument None (Some element) prev next)
     = mkCore (getTextSafe (getBlockParent element))
              (getBlockParent element) (getBlockParent element)) /\
  (forall prev next lookaround,
     getCurrentContext (mkDocument None None prev next) lookaround = "") /\
  getCurrentContext Page.document (Some 1) = "hello  start   after" /\
  getCurrentContext
    (mkDocument None (Some Page.run) Page.previous Page.next) (Some 1)
    = "start  after ".
Proof.
  split; [|split; [|split; [|split; [|split]]]]; try reflexivity.
  - intros [|e r] cursor prev next; reflexivity.
  - intros element prev next. unfold captureCore. simpl.
    destruct (getBlockParent element); reflexivity.
Qed.

(* ===================================================================== *)
(** ** The lines of a document *)
(* ===================================================================== *)

Lemma trimEnd_twice (s : string) : trimEnd (trimEnd s) = trimEnd s.
Proof.
  induction s as [|c r IH]; [reflexivity|]. simpl.
  destruct (trimEnd r) as [|d r'] eqn:E.
  - destruct (isWhiteSpace c) eqn:W; [reflexivity|]. simpl. now rewrite W.
  - simpl. simpl in IH. destruct (trimEnd r') as [|e r''] eqn:E'.
    + destruct (isWhiteSpace d); [discriminate|]. now rewrite IH.
    + now rewrite IH.
Qed.

Lemma trimStart_head (c : ascii) (r : string) :
  isWhiteSpace c = false -> trimStart (String c r) = String c r.
Proof. intros H. simpl. now rewrite H. Qed.

Lemma trimStart_shape (s : string) :
  trimStart s = EmptyString \/
  exists c r, trimStart s = String c r /\ isWhiteSpace c = false.
Proof.
  induction s as [|c r IH]; [now left|]. simpl.
  destruct (isWhiteSpace c) eqn:W; [exact IH|]. right. eauto.
Qed.

Lemma trimEnd_head (c : ascii) (r : string) :
  isWhiteSpace c = false -> exists r', trimEnd (String c r) = String c r'.
Proof.
  intros W. simpl. destruct (trimEnd r); [rewrite W|]; eauto.
Qed.

(** Trimming a trimmed string changes nothing. *)
Lemma trim_twice (s : string) : trim (trim s) = trim s.
Proof.
  unfold trim. destruct (trimStart_shape s) as [E|(c & r & E & W)]; rewrite E.
  - reflexivity.
  - destruct (trimEnd_head c r W) as (r' & E').
    rewrite E', (trimStart_head c r' W), <- E'. apply trimEnd_twice.
Qed.

Lemma extractLines_from (inl : JsObject.Obj Docs.InlineObject)
    (pos : JsObject.Obj Docs.PositionedObject)
    (c : list Docs.StructuralElement) (acc : list Line) :
  fold_left
    (fun lines element =>
       match Docs.paragraph element with
       | Some p => lines ++ [Docs.lineOf inl pos p]
       | None => lines
       end) c acc
  = acc ++ map (Docs.lineOf inl pos) (paragraphsOf c).
Proof.
  revert acc. induction c as [|e r IH]; intros acc; simpl.
  - now rewrite app_nil_r.
  - destruct (Docs.paragraph e); rewrite IH; [|reflexivity].
    now rewrite <- app_assoc.
Qed.

Lemma paragraphsOf_length (c : list Docs.StructuralElement) :
  List.length (paragraphsOf c) <= List.length c.
Proof.
  induction c as [|e r IH]; simpl; [lia|]. destruct (Docs.paragraph e); simpl; lia.
Qed.

Lemma readElement_text (inl : JsObject.Obj Docs.InlineObject)
    (els : list Docs.ParagraphElement) (t : string) (img : option string) :
  fst (fold_left (Docs.readElement inl) els (t, img)) = t +++ runText els.
Proof.
  revert t img. induction els as [|el r IH]; intros t img; simpl.
  - induction t; simpl; congruence.
  - unfold Docs.readElement at 2. simpl fst. simpl snd.
    destruct (Docs.runContent el) as [c|].
    + rewrite IH. induction t; simpl; congruence.
    + destruct (Docs.inlineObjectElement el) as [ioe|]; [|apply IH].
      destruct (Docs.inlineUri inl (Docs.inlineObjectId ioe)) as [uri|]; [|apply IH].
      destruct (negb (truthy img)); apply IH.
Qed.

Lemma lineOf_text (inl : JsObject.Obj Docs.InlineObject)
    (pos : JsObject.Obj Docs.PositionedObject) (p : Docs.Paragraph) :
  text (Docs.lineOf inl pos p) = trim (runText (Docs.elements p)).
Proof.
  unfold Docs.lineOf.
  pose proof (readElement_text inl (Docs.elements p) EmptyString None) as H.
  destruct (fold_left _ _ _) as [t img]. simpl in H. subst t. reflexivity.
Qed.

Lemma lineOf_style (inl : JsObject.Obj Docs.InlineObject)
    (pos : JsObject.Obj Docs.PositionedObject) (p : Docs.Paragraph) :
  style (Docs.lineOf inl pos p) = Docs.styleOf p.
Proof.
  unfold Docs.lineOf. destruct (fold_left _ _ _) as [t img]. reflexivity.
Qed.

(** (X1) The lines [parseBodyContent] works on are one for each content
    element that has a paragraph, in the order of the document; an
    element without a paragraph gives no line.  The text of a line is
    the run texts of its paragraph put together and trimmed, so trimming
    it again changes nothing.  Its style is never empty: it is
    "NORMAL_TEXT" when the paragraph has no paragraph style, or one
    without a named style type or with an empty one, and the named style
    type otherwise. *)
Theorem extractLines_one_per_paragraph
    (inl : JsObject.Obj Docs.InlineObject)
    (pos : JsObject.Obj Docs.PositionedObject)
    (c : list Docs.StructuralElement) :
  Docs.extractLines inl pos c = map (Docs.lineOf inl pos) (paragraphsOf c) /\
  List.length (Docs.extractLines inl pos c) <= List.length c /\
  Forall (fun l => trim (text l) = text l /\ style l <> EmptyString)
         (Docs.extractLines inl pos c) /\
  map text (Docs.extractLines inl pos c)
  = map (fun p => trim (runText (Docs.elements p))) (paragraphsOf c) /\
  (forall p,
     Docs.paragraphStyle p = None \/
     (exists ps, Docs.paragraphStyle p = Some ps /\
                 (Docs.namedStyleType ps = None \/
                  Docs.namedStyleType ps = Some EmptyString)) ->
     style (Docs.lineOf inl pos p) = "NORMAL_TEXT") /\
  (forall p ps t,
     Docs.paragraphStyle p = Some ps ->
     Docs.namedStyleType ps = Some t ->
     t <> EmptyString ->
     style (Docs.lineOf inl pos p) = t).
Proof.
  assert (E : Docs.extractLines inl pos c
              = map (Docs.lineOf inl pos) (paragraphsOf c))
    by (unfold Docs.extractLines; now rewrite extractLines_from).
  rewrite E. split; [reflexivity|]. split; [|split; [|split; [|split]]].
  - rewrite length_map. apply paragraphsOf_length.
  - apply Forall_map, Forall_forall. intros p _.
    rewrite lineOf_text, lineOf_style. split; [apply trim_twice|].
    unfold Docs.styleOf. destruct (Docs.paragraphStyle p) as [ps|]; [|discriminate].
    destruct (Docs.namedStyleType ps) as [t|]; [|discriminate].
    destruct t; simpl; discriminate.
  - rewrite map_map. apply map_ext. intros p. apply lineOf_text.
  - intros p H. rewrite lineOf_style. unfold Docs.styleOf.
    destruct H as [->|(ps & -> & [->| ->])]; reflexivity.
  - intros p ps t Hp Ht Hn. rewrite lineOf_style. unfold Docs.styleOf.
    rewrite Hp, Ht. destruct t; [congruence|reflexivity].
Qed.

Lemma extractLines_one_per_paragraph_witness :
  Docs.paragraphStyle (HostSample.plainParagraph "kind: door") = None /\
  style (Docs.lineOf HostSample.inlineTable HostSample.positionedTable
           (HostSample.plainParagraph "kind: door")) = "NORMAL_TEXT" /\
  Docs.paragraphStyle HostSample.pictureParagraph
    = Some (Docs.mkParagraphStyle (Some "HEADING_1")) /\
  "HEADING_1" <> EmptyString /\
  style (Docs.lineOf HostSample.inlineTable HostSample.positionedTable
           HostSample.pictureParagraph) = "HEADING_1".
Proof.
  assert (Hn : "HEADING_1" <> EmptyString) by discriminate.
  pose proof (extractLines_one_per_paragraph HostSample.inlineTable
                HostSample.positionedTable HostSample.content)
    as (_ & _ & _ & _ & H5 & H6).
  split; [reflexivity|]. split.
  - exact (H5 (HostSample.plainParagraph "kind: door") (or_introl eq_refl)).
  - split; [reflexivity|]. split; [exact Hn|].
    exact (H6 HostSample.pictureParagraph
              (Docs.mkParagraphStyle (Some "HEADING_1")) "HEADING_1"
              eq_refl eq_refl Hn).
Defined.

Lemma firstSet_app (l1 l2 : list (option string)) :
  firstSet (l1 ++ l2) = if truthy (firstSet l1) then firstSet l1 else firstSet l2.
Proof.
  induction l1 as [|c r IH]; simpl; [reflexivity|].
  destruct (truthy c) eqn:E; [now rewrite E|exact IH].
Qed.

Lemma firstSet_falsy (l : list (option string)) :
  truthy (firstSet l) = false -> firstSet l = None.
Proof.
  induction l as [|c r IH]; simpl; [reflexivity|].
  destruct (truthy c) eqn:E; [congruence|exact IH].
Qed.

(** The image after the loop over the elements: the one held before if
    it was set, else the first inline candidate that is set. *)
Lemma readElement_image (inl : JsObject.Obj Docs.InlineObject)
    (els : list Docs.ParagraphElement) (t : string) (img : option string) :
  present (snd (fold_left (Docs.readElement inl) els (t, img)))
  = if truthy img then img else firstSet (inlineCandidates inl els).
Proof.
  revert t img. induction els as [|el r IH]; intros t img; simpl.
  - unfold present. destruct (truthy img); reflexivity.
  - unfold Docs.readElement at 2. simpl fst. simpl snd.
    destruct (Docs.runContent el) as [c|]; [apply IH|].
    destruct (Docs.inlineObjectElement el) as [ioe|]; [|apply IH].
    destruct (Docs.inlineUri inl (Docs.inlineObjectId ioe)) as [uri|]; [|apply IH].
    destruct (truthy img) eqn:E; simpl.
    + rewrite IH, E. reflexivity.
    + rewrite IH. simpl. destruct (truthy uri); reflexivity.
Qed.

Lemma readPositioned_image (pos : JsObject.Obj Docs.PositionedObject)
    (ids : list string) (img : option string) :
  present (fold_left (Docs.readPositioned pos) ids img)
  = if truthy img then img else firstSet (positionedCandidates pos ids).
Proof.
  revert img. induction ids as [|i r IH]; intros img; simpl.
  - unfold present. destruct (truthy img); reflexivity.
  - unfold Docs.readPositioned at 2.
    destruct (truthy img) eqn:E; simpl.
    + rewrite IH, E.
      destruct (Docs.positionedUri pos i); reflexivity.
    + destruct (Docs.positionedUri pos i) as [uri|]; simpl.
      * rewrite IH. destruct (truthy uri); reflexivity.
      * rewrite IH, E. reflexivity.
Qed.

(** (X2) The image of a line, when it has one, is the first [contentUri]
    that is set among the inline objects of the paragraph that resolve
    to an image, in the order of the elements, and after them among its
    positioned objects, in the order of their ids; a line has no image
    exactly when none of them is set.  An inline image so wins over an
    anchored one, and an object that does not resolve is passed over. *)
Theorem line_image_first_found (inl : JsObject.Obj Docs.InlineObject)
    (pos : JsObject.Obj Docs.PositionedObject) (p : Docs.Paragraph) :
  present (imageUrl (Docs.lineOf inl pos p))
  = firstSet (inlineCandidates inl (Docs.elements p)
              ++ positionedCandidates pos (positionedIds p)).
Proof.
  unfold Docs.lineOf.
  pose proof (readElement_image inl (Docs.elements p) EmptyString None) as H.
  destruct (fold_left _ _ _) as [t img]. simpl in H. simpl imageUrl.
  rewrite firstSet_app, <- H. unfold positionedIds.
  destruct (truthy img) eqn:E; simpl.
  - assert (P : present img = img) by (unfold present; now rewrite E).
    now rewrite P, E.
  - assert (P : present img = None) by (unfold present; now rewrite E).
    rewrite P. simpl.
    destruct (Docs.positionedObjectIds p) as [ids|].
    + rewrite readPositioned_image, E. reflexivity.
    + exact P.
Qed.

(* ===================================================================== *)
(** ** Documents without entries *)
(* ===================================================================== *)

Lemma shiftLeading_blank (buf : list Line) :
  Forall (fun l => blankLine l = true) buf -> shiftLeading buf = [].
Proof.
  induction 1 as [|b r Hb _ IH]; simpl; [reflexivity|]. now rewrite Hb.
Qed.

Lemma flush_blank (st : ParseState) :
  metadata st = [] ->
  Forall (fun b => blankLine b = true) (buffer st) ->
  metadata (flush st) = [].
Proof.
  intros Hm Hb. rewrite flush_metadata.
  remember (buffer st) as buf eqn:E. destruct buf as [|b r]; [exact Hm|].
  rewrite processBuffer_cases, (shiftLeading_blank _ Hb). exact Hm.
Qed.

Lemma step_blank_state (st : ParseState) (l : Line) :
  blankLine l = true ->
  metadata st = [] ->
  Forall (fun b => blankLine b = true) (buffer st) ->
  metadata (step st l) = [] /\
  Forall (fun b => blankLine b = true) (buffer (step st l)).
Proof.
  intros Hl Hm Hb.
  pose proof (flush_blank st Hm Hb) as Hf.
  unfold step. destruct (headingMatch (style l)); simpl.
  - rewrite flush_buffer. split; [exact Hf|]. repeat constructor. exact Hl.
  - rewrite Hl. simpl. rewrite flush_buffer. split; [exact Hf|]. constructor.
Qed.

(** (X3) A document without a content array, with an empty one, or in
    which every paragraph has empty text and no image (headings
    included) gives the empty map: no entry is made up. *)
Theorem blank_document_has_no_entries :
  (forall inl pos, Docs.parseBodyContent None inl pos = []) /\
  (forall inl pos, Docs.parseBodyContent (Some []) inl pos = []) /\
  (forall lines,
     Forall (fun l => blankLine l = true) lines -> parseBodyContent lines = []) /\
  (forall c inl pos,
     Forall (fun l => blankLine l = true)
            (Docs.extractLines (Docs.orEmpty inl) (Docs.orEmpty pos) c) ->
     Docs.parseBodyContent (Some c) inl pos = []).
Proof.
  assert (G : forall lines,
     Forall (fun l => blankLine l = true) lines -> parseBodyContent lines = []).
  { intros lines Hl.
    assert (H : forall st,
               metadata st = [] ->
               Forall (fun b => blankLine b = true) (buffer st) ->
               metadata (flush (fold_left step lines st)) = []).
    { induction Hl as [|l r Hb _ IH]; intros st Hm Hbuf; simpl.
      - now apply flush_blank.
      - destruct (step_blank_state st l Hb Hm Hbuf) as [H1 H2]. now apply IH. }
    unfold parseBodyContent, collect. rewrite H; [reflexivity|reflexivity|constructor]. }
  split; [reflexivity|]. split; [reflexivity|]. split; [exact G|].
  intros c inl pos H. simpl. now apply G.
Qed.

Lemma blank_document_has_no_entries_witness :
  Forall (fun l => blankLine l = true)
         [Sample.normal ""; Sample.heading "2" ""; Sample.normal ""] /\
  parseBodyContent [Sample.normal ""; Sample.heading "2" ""; Sample.normal ""] = [].
Proof.
  assert (H : Forall (fun l => blankLine l = true)
                     [Sample.normal ""; Sample.heading "2" ""; Sample.normal ""])
    by (repeat constructor).
  split; [exact H|].
  exact (proj1 (proj2 (proj2 blank_document_has_no_entries)) _ H).
Defined.

(* ===================================================================== *)
(** ** The line loop: separators, plain entries and the pending buffer *)
(* ===================================================================== *)

Lemma step_separator (st : ParseState) (s : Line) :
  separator s ->
  step st s =
  mkState (flushed st) [] (headingStack st) (JsArray.join " > " (headingStack st)).
Proof.
  intros [Hh Hb]. unfold step, flushed.
  rewrite Hh, Hb, flush_buffer, flush_headingStack. reflexivity.
Qed.

Lemma run_separators (seps : list Line) (st : ParseState) (s : Line) :
  separator s -> Forall separator seps ->
  fold_left step (s :: seps) st = step st s.
Proof.
  intros Hs Hseps. simpl. induction Hseps as [|x r Hx _ IH]; [reflexivity|].
  simpl. rewrite (step_separator st s Hs) in *.
  rewrite (step_separator _ x Hx). unfold flushed at 1. simpl. exact IH.
Qed.

(** (X4) Blank lines after a blank line are no-ops: a run of separators
    leaves the loop in the state the first one left it in, so a document
    parses to the same map with one blank line between two entries as
    with several. *)
Theorem repeated_separators_change_nothing
    (pre : list Line) (s : Line) (seps post : list Line) :
  separator s -> Forall separator seps ->
  (forall st, fold_left step (s :: seps) st = step st s) /\
  parseBodyContent (pre ++ s :: seps ++ post) = parseBodyContent (pre ++ s :: post).
Proof.
  intros Hs Hseps. split.
  - intros st. now apply run_separators.
  - unfold parseBodyContent, collect. do 2 f_equal. f_equal.
    rewrite !fold_left_app.
    change (s :: seps ++ post) with ((s :: seps) ++ post).
    rewrite fold_left_app, (run_separators seps _ s Hs Hseps). reflexivity.
Qed.

Lemma repeated_separators_change_nothing_witness :
  separator (Sample.normal "") /\
  Forall separator [Sample.normal ""; Sample.normal ""] /\
  parseBodyContent
    ([Sample.normal "A"] ++ Sample.normal ""
       :: [Sample.normal ""; Sample.normal ""] ++ [Sample.normal "B"])
  = parseBodyContent ([Sample.normal "A"] ++ Sample.normal "" :: [Sample.normal "B"]).
Proof.
  assert (Hs : separator (Sample.normal "")) by (split; reflexivity).
  assert (Hl : Forall separator [Sample.normal ""; Sample.normal ""])
    by (repeat constructor).
  split; [exact Hs|]. split; [exact Hl|].
  exact (proj2 (repeated_separators_change_nothing [Sample.normal "A"]
                  (Sample.normal "") [Sample.normal ""; Sample.normal ""]
                  [Sample.normal "B"] Hs Hl)).
Defined.

Lemma step_first_plain (st : ParseState) (b0 : Line) :
  plain b0 -> buffer st = [] ->
  step st b0 =
  mkState (metadata st) [b0] (headingStack st)
          (JsArray.join " > " (headingStack st)).
Proof.
  intros [Hh Hb] He. unfold step. rewrite Hh, Hb, He. reflexivity.
Qed.

(** (X5) An entry that does not start at a heading gets the whole
    heading path as its category.  After a separator the buffer is empty
    and the stack is as before; plain lines met with an empty buffer
    become the pending buffer with the path set to all the titles of the
    heading stack joined with " > ", and that buffer is flushed with
    that path; a first line with a name (other than "__proto__", under
    which the write stores nothing) so gets an entry whose category is
    the joined stack. *)
Theorem plain_entry_category
    (st : ParseState) (b0 : Line) (body : list Line) :
  buffer st = [] ->
  plain b0 -> Forall plain body ->
  buffer (fold_left step (b0 :: body) st) = b0 :: body /\
  currentPath (fold_left step (b0 :: body) st)
    = JsArray.join " > " (headingStack st) /\
  headingStack (fold_left step (b0 :: body) st) = headingStack st /\
  flushed (fold_left step (b0 :: body) st)
    = processBuffer (b0 :: body) (JsArray.join " > " (headingStack st))
        (metadata st) /\
  (isEmpty (text b0) = false ->
   text b0 <> "__proto__" ->
   exists item,
     JsObject.get (text b0) (flushed (fold_left step (b0 :: body) st))
       = Some item /\
     category item = JsArray.join " > " (headingStack st)) /\
  (forall s, separator s ->
     buffer (step st s) = [] /\ headingStack (step st s) = headingStack st).
Proof.
  intros He Hb0 Hbody.
  assert (Hst : fold_left step (b0 :: body) st
                = mkState (metadata st) (b0 :: body) (headingStack st)
                          (JsArray.join " > " (headingStack st))).
  { simpl fold_left. rewrite (step_first_plain st b0 Hb0 He).
    rewrite run_plain; [reflexivity|exact Hbody|discriminate]. }
  rewrite Hst. unfold flushed. simpl.
  split; [reflexivity|]. split; [reflexivity|]. split; [reflexivity|].
  split; [reflexivity|]. split.
  - intros Hn Hp.
    exists (buildItem (b0 :: body) (JsArray.join " > " (headingStack st))).
    split; [|apply buildItem_category].
    apply processBuffer_entry; [apply Hb0|exact Hn|exact Hp].
  - intros s Hs. rewrite (step_separator st s Hs). split; reflexivity.
Qed.

Lemma plain_entry_category_witness :
  buffer (fold_left step
            [Sample.heading "1" "A"; Sample.heading "2" "B"; Sample.normal ""]
            initialState) = [] /\
  plain (Sample.normal "door") /\
  Forall plain [Sample.normal "kind: way in"] /\
  isEmpty (text (Sample.normal "door")) = false /\
  text (Sample.normal "door") <> "__proto__" /\
  exists item,
    JsObject.get "door"
      (flushed
         (fold_left step (Sample.normal "door" :: [Sample.normal "kind: way in"])
            (fold_left step
               [Sample.heading "1" "A"; Sample.heading "2" "B"; Sample.normal ""]
               initialState))) = Some item /\
    category item = "A > B".
Proof.
  assert (Hp : plain (Sample.normal "door")) by (split; reflexivity).
  assert (Hb : Forall plain [Sample.normal "kind: way in"]).
  { repeat constructor. }
  assert (Hn : text (Sample.normal "door") <> "__proto__") by discriminate.
  split; [reflexivity|]. split; [exact Hp|]. split; [exact Hb|].
  split; [reflexivity|]. split; [exact Hn|].
  exact (proj1 (proj2 (proj2 (proj2 (proj2
           (plain_entry_category
              (fold_left step
                 [Sample.heading "1" "A"; Sample.heading "2" "B"; Sample.normal ""]
                 initialState)
              (Sample.normal "door") [Sample.normal "kind: way in"]
              eq_refl Hp Hb))))) eq_refl Hn).
Defined.

Lemma shiftLeading_plain (buf : list Line) :
  Forall plain buf -> shiftLeading buf = buf.
Proof.
  intros H. destruct H as [|b r [_ Hb] _]; [reflexivity|].
  simpl. now rewrite Hb.
Qed.

(** The shape of the pending buffer: empty, or a first line that is a
    heading or plain followed by plain lines only. *)
Lemma buffer_shape (lines : list Line) (st : ParseState) :
  (buffer st = [] \/
   exists b rest, buffer st = b :: rest /\ Forall plain rest /\
                  (plain b \/ headingLine b)) ->
  buffer (fold_left step lines st) = [] \/
  exists b rest, buffer (fold_left step lines st) = b :: rest /\
                 Forall plain rest /\ (plain b \/ headingLine b).
Proof.
  revert st. induction lines as [|l r IH]; intros st Hst; [exact Hst|].
  simpl. apply IH. unfold step.
  destruct (headingMatch (style l)) as [L|] eqn:Eh.
  - right. exists l, []. simpl. rewrite flush_buffer. simpl.
    split; [reflexivity|]. split; [constructor|]. right.
    unfold headingLine. congruence.
  - destruct (blankLine l) eqn:Eb.
    + left. simpl. apply flush_buffer.
    + right. simpl. destruct Hst as [He|(b & rest & He & Hr & Hb)]; rewrite He.
      * exists l, []. simpl. split; [reflexivity|]. split; [constructor|].
        left. now split.
      * exists b, (rest ++ [l]). split; [reflexivity|]. split; [|exact Hb].
        apply Forall_app. split; [exact Hr|]. repeat constructor; assumption.
Qed.

(** (X6) Whatever lines the loop has read, its pending buffer holds no
    separator, and a heading only as its first line.  The shifting loop
    of [processBuffer] so never drops more than one line of a buffer the
    loop hands to it, and the line it drops is a heading without title
    and image; the line under it then names the entry. *)
Theorem pending_buffer_shape (lines : list Line) :
  (buffer (fold_left step lines initialState) = [] \/
   exists b rest,
     buffer (fold_left step lines initialState) = b :: rest /\
     Forall plain rest /\ (plain b \/ headingLine b)) /\
  (shiftLeading (buffer (fold_left step lines initialState))
     = buffer (fold_left step lines initialState) \/
   exists h rest,
     buffer (fold_left step lines initialState) = h :: rest /\
     headingLine h /\ blankLine h = true /\
     shiftLeading (buffer (fold_left step lines initialState)) = rest).
Proof.
  assert (H := buffer_shape lines initialState (or_introl eq_refl)).
  split; [exact H|].
  destruct H as [He|(b & rest & He & Hr & Hb)]; rewrite He.
  - now left.
  - destruct (blankLine b) eqn:Eb.
    + right. exists b, rest. split; [reflexivity|].
      destruct Hb as [[_ Hp]|Hh]; [congruence|].
      split; [exact Hh|]. split; [exact Eb|].
      simpl. rewrite Eb. now apply shiftLeading_plain.
    + left. simpl. now rewrite Eb.
Qed.

(* ===================================================================== *)
(** ** Names: overwriting, order and distinctness *)
(* ===================================================================== *)

Section KeyFacts.
Context {V : Type}.
Implicit Types (o : JsObject.Obj V) (k : string) (v : V).

Lemma get_none_not_in k o : JsObject.get k o = None -> ~ In k (JsObject.keys o).
Proof.
  intros H Hin. apply in_keys_get in Hin as [v Hv]. congruence.
Qed.

(** A new array-index key goes between the keys that were there. *)
Lemma keys_insertIndex n k v o :
  exists l1 l2,
    JsObject.keys o = l1 ++ l2 /\
    JsObject.keys (JsObject.insertIndex n k v o) = l1 ++ k :: l2.
Proof.
  induction o as [|[k' v'] r IH]; simpl.
  - exists [], []. auto.
  - destruct (JsObject.arrayIndex k') as [n'|].
    + destruct (n' <? n)%N.
      * destruct IH as (l1 & l2 & H1 & H2). exists (k' :: l1), l2. simpl.
        unfold JsObject.keys in *. simpl. rewrite H1, H2. auto.
      * exists [], (k' :: JsObject.keys r). auto.
    + exists [], (k' :: JsObject.keys r). auto.
Qed.

(** Writing a key that is there keeps the keys as they are. *)
Lemma keys_set_old k v o old :
  JsObject.get k o = Some old -> JsObject.keys (JsObject.set k v o) = JsObject.keys o.
Proof.
  intros H. unfold JsObject.set, JsObject.has. rewrite H. apply keys_adjust.
Qed.

(** Writing a key that is not there adds it, the others keeping their
    order. *)
Lemma keys_set_new k v o :
  JsObject.get k o = None ->
  exists l1 l2,
    JsObject.keys o = l1 ++ l2 /\
    JsObject.keys (JsObject.set k v o) = l1 ++ k :: l2.
Proof.
  intros H. unfold JsObject.set, JsObject.has. rewrite H.
  destruct (JsObject.arrayIndex k) as [n|]; [apply keys_insertIndex|].
  exists (JsObject.keys o), []. rewrite app_nil_r. split; [reflexivity|].
  unfold JsObject.keys. now rewrite map_app.
Qed.

Lemma set_NoDup k v o :
  NoDup (JsObject.keys o) -> NoDup (JsObject.keys (JsObject.set k v o)).
Proof.
  intros Hn. destruct (JsObject.get k o) as [old|] eqn:E.
  - now rewrite (keys_set_old k v o old E).
  - destruct (keys_set_new k v o E) as (l1 & l2 & H1 & H2). rewrite H2.
    apply (NoDup_Add (Add_app k l1 l2)). rewrite <- H1. split; [exact Hn|].
    now apply get_none_not_in.
Qed.

(** The keys after a write do not depend on the value written. *)
Lemma keys_set_value k v v' o :
  JsObject.keys (JsObject.set k v o) = JsObject.keys (JsObject.set k v' o).
Proof.
  unfold JsObject.set. destruct (JsObject.has k o); [now rewrite !keys_adjust|].
  destruct (JsObject.arrayIndex k) as [n|].
  - induction o as [|[k' x] r IH]; simpl; [reflexivity|].
    destruct (JsObject.arrayIndex k') as [n'|]; [|reflexivity].
    destruct (n' <? n)%N; [|reflexivity]. simpl. f_equal. exact IH.
  - unfold JsObject.keys. now rewrite !map_app.
Qed.

Lemma in_keys_set k v o x :
  In x (JsObject.keys o) -> In x (JsObject.keys (JsObject.set k v o)).
Proof.
  intros H. destruct (string_dec x k) as [->|Hne].
  - eapply get_in_keys, get_set_same.
  - apply in_keys_get in H as [w Hw]. eapply get_in_keys.
    rewrite get_set_other by exact Hne. exact Hw.
Qed.

End KeyFacts.

(** (X7) A flushed buffer with a name that is already in the map
    replaces the whole item under that name, nothing of the old item
    being kept, and leaves the keys and their order as they were; with a
    new name it adds that one key and keeps the order of the others; in
    both cases every other entry is untouched.  The name "__proto__" is
    the exception: the write under it stores nothing and the map stays
    as it was. *)
Theorem duplicate_name_overwrites (buf : list Line) (b0 : Line)
    (rest : list Line) (pathStr : string) (md : Metadata) :
  shiftLeading buf = b0 :: rest ->
  isEmpty (text b0) = false ->
  (text b0 = "__proto__" -> processBuffer buf pathStr md = md) /\
  (text b0 <> "__proto__" ->
   JsObject.get (text b0) (processBuffer buf pathStr md)
     = Some (buildItem (b0 :: rest) pathStr) /\
   (forall old, JsObject.get (text b0) md = Some old ->
      JsObject.keys (processBuffer buf pathStr md) = JsObject.keys md) /\
   (JsObject.get (text b0) md = None ->
    exists l1 l2,
      JsObject.keys md = l1 ++ l2 /\
      JsObject.keys (processBuffer buf pathStr md) = l1 ++ text b0 :: l2)) /\
  (forall k, k <> text b0 ->
     JsObject.get k (processBuffer buf pathStr md) = JsObject.get k md).
Proof.
  intros Hs Hn. rewrite processBuffer_cases, Hs, Hn.
  split; [|split].
  - intros ->. apply assign_proto.
  - intros Hp. rewrite assign_ordinary by exact Hp.
    split; [apply get_set_same|]. split.
    + intros old Ho. now apply (keys_set_old _ _ _ old).
    + intros Ho. now apply keys_set_new.
  - intros k Hk.
    destruct (assign_cases (text b0) (buildItem (b0 :: rest) pathStr) md) as [A|A];
      rewrite A; [reflexivity|now apply get_set_other].
Qed.

Lemma duplicate_name_overwrites_witness :
  shiftLeading [Sample.normal "B"; Sample.normal "new"] =
    Sample.normal "B" :: [Sample.normal "new"] /\
  isEmpty (text (Sample.normal "B")) = false /\
  text (Sample.normal "B") <> "__proto__" /\
  JsObject.get "B"
    (processBuffer [Sample.normal "B"; Sample.normal "new"] "Z" Sample.family)
    = Some (mkItem "new" [] "Z" None) /\
  JsObject.keys
    (processBuffer [Sample.normal "B"; Sample.normal "new"] "Z" Sample.family)
    = ["A"; "B"; "C"].
Proof.
  assert (Hp : text (Sample.normal "B") <> "__proto__") by discriminate.
  split; [reflexivity|]. split; [reflexivity|]. split; [exact Hp|].
  destruct (duplicate_name_overwrites
              [Sample.normal "B"; Sample.normal "new"] (Sample.normal "B")
              [Sample.normal "new"] "Z" Sample.family eq_refl eq_refl)
    as (_ & H2 & _).
  destruct (H2 Hp) as (H1 & H3 & _).
  split; [exact H1|].
  exact (H3 (mkItem "d" [] "A" None) eq_refl).
Defined.

Lemma processBuffer_NoDup (buf : list Line) (pathStr : string) (md : Metadata) :
  NoDup (JsObject.keys md) -> NoDup (JsObject.keys (processBuffer buf pathStr md)).
Proof.
  intros H. rewrite processBuffer_cases.
  destruct (shiftLeading buf) as [|b0 rest]; [exact H|].
  destruct (isEmpty (text b0)); [exact H|].
  destruct (assign_cases (text b0) (buildItem (b0 :: rest) pathStr) md) as [A|A];
    rewrite A; [exact H|now apply set_NoDup].
Qed.

Lemma flush_NoDup (st : ParseState) :
  NoDup (JsObject.keys (metadata st)) -> NoDup (JsObject.keys (metadata (flush st))).
Proof.
  intros H. rewrite flush_metadata. destruct (buffer st); [exact H|].
  now apply processBuffer_NoDup.
Qed.

Lemma step_NoDup (st : ParseState) (l : Line) :
  NoDup (JsObject.keys (metadata st)) -> NoDup (JsObject.keys (metadata (step st l))).
Proof.
  intros H. unfold step. destruct (headingMatch (style l)).
  - now apply flush_NoDup.
  - destruct (blankLine l); [now apply flush_NoDup|exact H].
Qed.

Lemma collect_NoDup (lines : list Line) : NoDup (JsObject.keys (collect lines)).
Proof.
  assert (H : forall st, NoDup (JsObject.keys (metadata st)) ->
                         NoDup (JsObject.keys (metadata (fold_left step lines st)))).
  { induction lines as [|l r IH]; intros st Hst; [exact Hst|].
    simpl. apply IH. now apply step_NoDup. }
  unfold collect. apply flush_NoDup, H. constructor.
Qed.

(** (X8) The map [parseBodyContent] returns has every name once, none
    of them empty, and the list of children the backfill pass writes
    into a description names no child twice. *)
Theorem entry_names_are_distinct (lines : list Line) :
  NoDup (JsObject.keys (parseBodyContent lines)) /\
  ~ In EmptyString (JsObject.keys (parseBodyContent lines)) /\
  (forall expected, NoDup (childrenOf (collect lines) expected)).
Proof.
  assert (Hk : JsObject.keys (parseBodyContent lines) = JsObject.keys (collect lines)).
  { unfold parseBodyContent. now rewrite backfill_fillAll, fillAll_keys. }
  rewrite Hk. split; [apply collect_NoDup|]. split.
  - intros Hin. now apply (collect_named lines EmptyString Hin).
  - intros expected. unfold childrenOf. apply NoDup_filter, collect_NoDup.
Qed.

Lemma shiftLeading_app (buf more : list Line) :
  shiftLeading buf <> [] -> shiftLeading (buf ++ more) = shiftLeading buf ++ more.
Proof.
  induction buf as [|b r IH]; simpl; [congruence|].
  destruct (blankLine b); [exact IH|reflexivity].
Qed.

Lemma processBuffer_keys_grow (buf : list Line) (pathStr : string)
    (md : Metadata) (k : string) :
  In k (JsObject.keys md) -> In k (JsObject.keys (processBuffer buf pathStr md)).
Proof.
  intros H. rewrite processBuffer_cases.
  destruct (shiftLeading buf) as [|b0 rest]; [exact H|].
  destruct (isEmpty (text b0)); [exact H|].
  destruct (assign_cases (text b0) (buildItem (b0 :: rest) pathStr) md) as [A|A];
    rewrite A; [exact H|now apply in_keys_set].
Qed.

(** More lines at the end of a buffer do not change the name it is
    stored under. *)
Lemma processBuffer_keys_app (buf more : list Line) (pathStr : string)
    (md : Metadata) (k : string) :
  In k (JsObject.keys (processBuffer buf pathStr md)) ->
  In k (JsObject.keys (processBuffer (buf ++ more) pathStr md)).
Proof.
  rewrite (processBuffer_cases buf).
  destruct (shiftLeading buf) as [|b0 rest] eqn:E.
  - apply processBuffer_keys_grow.
  - rewrite processBuffer_cases, shiftLeading_app, E by congruence. simpl.
    destruct (isEmpty (text b0)); [exact (fun H => H)|].
    unfold JsObject.assign.
    destruct (String.eqb (text b0) "__proto__"); [exact (fun H => H)|].
    now rewrite (keys_set_value (text b0) (buildItem (b0 :: rest ++ more) pathStr)
                   (buildItem (b0 :: rest) pathStr) md).
Qed.

Lemma flushed_grows (st : ParseState) (k : string) :
  In k (JsObject.keys (metadata st)) -> In k (JsObject.keys (flushed st)).
Proof.
  intros H. unfold flushed. rewrite flush_metadata.
  destruct (buffer st); [exact H|]. now apply processBuffer_keys_grow.
Qed.

Lemma step_keeps_names (st : ParseState) (l : Line) (k : string) :
  In k (JsObject.keys (flushed st)) -> In k (JsObject.keys (flushed (step st l))).
Proof.
  intros H. unfold step.
  destruct (headingMatch (style l)) as [L|].
  - apply flushed_grows. exact H.
  - destruct (blankLine l).
    + apply flushed_grows. exact H.
    + unfold flushed in *. rewrite flush_metadata in *. simpl.
      destruct (buffer st) as [|b r] eqn:E; simpl.
      * now apply processBuffer_keys_grow.
      * change (b :: r ++ [l]) with ((b :: r) ++ [l]).
        now apply processBuffer_keys_app.
Qed.

(** (X9) Lines added at the end of a document never take an entry away:
    every name in the map of a document is in the map of the document
    with more lines after it. *)
Theorem more_lines_keep_names (pre post : list Line) (k : string) :
  In k (JsObject.keys (parseBodyContent pre)) ->
  In k (JsObject.keys (parseBodyContent (pre ++ post))).
Proof.
  assert (Hk : forall lines,
             JsObject.keys (parseBodyContent lines) = JsObject.keys (collect lines)).
  { intros lines. unfold parseBodyContent. now rewrite backfill_fillAll, fillAll_keys. }
  rewrite !Hk. unfold collect. rewrite fold_left_app.
  generalize (fold_left step pre initialState). intros st.
  change (In k (JsObject.keys (flushed st)) ->
          In k (JsObject.keys (flushed (fold_left step post st)))).
  revert st. induction post as [|l r IH]; intros st H; [exact H|].
  simpl. apply IH. now apply step_keeps_names.
Qed.

Lemma more_lines_keep_names_witness :
  In "B" (JsObject.keys (parseBodyContent Sample.nesting)) /\
  In "B" (JsObject.keys
            (parseBodyContent (Sample.nesting ++ [Sample.normal "y"; Sample.normal ""]))).
Proof.
  assert (H : In "B" (JsObject.keys (parseBodyContent Sample.nesting)))
    by (right; left; reflexivity).
  split; [exact H|].
  exact (more_lines_keep_names Sample.nesting
           [Sample.normal "y"; Sample.normal ""] "B" H).
Defined.

(* ===================================================================== *)
(** ** Where the properties of an entry come from *)
(* ===================================================================== *)

Lemma includes_trimStart (c : ascii) (s : string) :
  includes c s = false -> includes c (trimStart s) = false.
Proof.
  induction s as [|d r IH]; simpl; [reflexivity|].
  destruct (Ascii.eqb d c) eqn:E; [discriminate|]. intros H.
  destruct (isWhiteSpace d); [now apply IH|]. simpl. now rewrite E.
Qed.

Lemma includes_trimEnd (c : ascii) (s : string) :
  includes c s = false -> includes c (trimEnd s) = false.
Proof.
  induction s as [|d r IH]; simpl; [reflexivity|].
  destruct (Ascii.eqb d c) eqn:E; [discriminate|]. intros H.
  specialize (IH H). destruct (trimEnd r) as [|e r'].
  - destruct (isWhiteSpace d); simpl; [reflexivity|]. now rewrite E.
  - simpl. rewrite E. exact IH.
Qed.

Lemma includes_trim (c : ascii) (s : string) :
  includes c s = false -> includes c (trim s) = false.
Proof.
  intros H. unfold trim. now apply includes_trimEnd, includes_trimStart.
Qed.

(** The pair a line gives: key and value are trimmed and not empty, and
    the key has no colon. *)
Lemma propertyOf_shape (line key val : string) :
  propertyOf line = Some (key, val) ->
  key <> EmptyString /\ val <> EmptyString /\
  trim key = key /\ trim val = val /\ includes ":" key = false.
Proof.
  intros H. destruct (propertyOf_some line key val H) as (Hc & Hk & Hv).
  destruct (includes_split ":" line Hc) as (a & b & -> & Ha).
  change (String ":" b) with (":" +++ b) in H.
  rewrite (propertyOf_first_colon a b Ha) in H.
  destruct (negb (isEmpty (trim a)) && negb (isEmpty (trim b))); [|discriminate].
  injection H as <- <-.
  repeat split; auto using trim_twice, includes_trim.
Qed.

Lemma beforeStop_in (rest : list Line) (b : Line) :
  In b (beforeStop rest) -> In b rest.
Proof.
  induction rest as [|x r IH]; simpl; [tauto|].
  destruct (startsWith "_" (text x)); simpl; [tauto|]. intros [H|H]; auto.
Qed.

(** A property found after the scan was there before it or was given by
    a line ahead of the stop marker. *)
Lemma scanLines_source (rest : list Line) (props : JsObject.Obj string)
    (img : option string) (k v : string) :
  JsObject.get k (fst (scanLines rest props img)) = Some v ->
  JsObject.get k props = Some v \/
  exists b, In b (beforeStop rest) /\ propertyOf (text b) = Some (k, v).
Proof.
  revert props img. induction rest as [|x r IH]; intros props img; simpl.
  - auto.
  - destruct (startsWith "_" (text x)); simpl; [auto|].
    intros H. apply IH in H as [H|(b & Hb & Hp)].
    + destruct (propertyOf (text x)) as [[k' v']|] eqn:E; [|auto].
      destruct (string_dec k k') as [->|Hne].
      * rewrite get_set_same in H. injection H as ->. right. exists x. auto.
      * rewrite get_set_other in H by exact Hne. auto.
    + right. exists b. auto.
Qed.

Lemma skipn_startIndex_tl (buf : list Line) (b : Line) :
  In b (skipn (startIndex buf) buf) -> In b (tl buf).
Proof.
  unfold startIndex. destruct (negb (isEmpty (descriptionOf buf))).
  - destruct buf as [|b0 [|b1 r]]; simpl; auto.
  - destruct buf as [|b0 r]; simpl; auto.
Qed.

(** (X10) Every property of an entry was given by a line of its buffer
    that comes after the name (and after the description, if there is
    one) and ahead of the first stop marker: neither the name line nor
    a line behind the marker sets a property.  Its key and value are
    trimmed and not empty, and the key has no colon in it. *)
Theorem properties_come_from_scanned_lines (buf : list Line)
    (pathStr key val : string) :
  JsObject.get key (properties (buildItem buf pathStr)) = Some val ->
  (exists b,
     In b (beforeStop (skipn (startIndex buf) buf)) /\
     In b (tl buf) /\
     propertyOf (text b) = Some (key, val)) /\
  key <> EmptyString /\ val <> EmptyString /\
  trim key = key /\ trim val = val /\ includes ":" key = false.
Proof.
  intros H. rewrite buildItem_properties in H.
  apply scanLines_source in H as [H|(b & Hb & Hp)]; [discriminate|].
  split; [|exact (propertyOf_shape _ _ _ Hp)].
  exists b. split; [exact Hb|]. split; [|exact Hp].
  now apply skipn_startIndex_tl, beforeStop_in.
Qed.

Lemma properties_come_from_scanned_lines_witness :
  JsObject.get "k" (properties (buildItem (tl Sample.markedBuffer) "")) = Some "v" /\
  exists b,
    In b (beforeStop (skipn (startIndex (tl Sample.markedBuffer))
                        (tl Sample.markedBuffer))) /\
    In b (tl (tl Sample.markedBuffer)) /\
    propertyOf (text b) = Some ("k", "v").
Proof.
  split; [reflexivity|].
  exact (proj1 (properties_come_from_scanned_lines
                  (tl Sample.markedBuffer) "" "k" "v" eq_refl)).
Defined.

(* ===================================================================== *)
(** ** The two copies of [processBuffer] *)
(* ===================================================================== *)

Lemma earlier_shiftLeading_blank (buf : list Line) :
  shiftLeading buf = [] -> Earlier.shiftLeading buf = [].
Proof.
  induction buf as [|b r IH]; simpl; [reflexivity|].
  unfold blankLine. destruct (isEmpty (text b)); simpl.
  - destruct (truthy (imageUrl b)); simpl; [discriminate|exact IH].
  - discriminate.
Qed.

Lemma earlier_shiftLeading_named (buf : list Line) (b0 : Line) (rest : list Line) :
  shiftLeading buf = b0 :: rest -> isEmpty (text b0) = false ->
  Earlier.shiftLeading buf = b0 :: rest.
Proof.
  induction buf as [|b r IH]; simpl; [discriminate|].
  unfold blankLine. destruct (isEmpty (text b)) eqn:E; simpl.
  - destruct (truthy (imageUrl b)); simpl.
    + intros H Hn. injection H as -> _. congruence.
    + exact IH.
  - auto.
Qed.

(** (X11) The copy of [processBuffer] at lines 486-536 and the one at
    lines 143-195 do the same to the map on every buffer for which the
    later one stores an entry; on any buffer on which they differ the
    later one leaves the map as it is (its first kept line is an image
    without text). *)
Theorem processBuffer_copies_agree (buf : list Line) (pathStr : string)
    (md : Metadata) :
  Earlier.processBuffer buf pathStr md = processBuffer buf pathStr md \/
  processBuffer buf pathStr md = md.
Proof.
  destruct (shiftLeading buf) as [|b0 rest] eqn:E.
  - left. unfold Earlier.processBuffer, processBuffer.
    now rewrite E, (earlier_shiftLeading_blank buf E).
  - destruct (isEmpty (text b0)) eqn:En.
    + right. now rewrite processBuffer_cases, E, En.
    + left. unfold Earlier.processBuffer, processBuffer.
      now rewrite E, (earlier_shiftLeading_named buf b0 rest E En).
Qed.

(* ===================================================================== *)
(** ** Looking up the metadata tab *)
(* ===================================================================== *)

Lemma find_first_title (target : string) (before : list Docs.Tab)
    (tab : Docs.Tab) (after : list Docs.Tab) :
  Forall (fun t => Docs.title t <> target) before ->
  Docs.title tab = target ->
  find (fun t => String.eqb (Docs.title t) target) (before ++ tab :: after)
  = Some tab.
Proof.
  intros Hb Ht. induction Hb as [|x r Hx _ IH]; simpl.
  - now rewrite (proj2 (String.eqb_eq _ _) Ht).
  - now rewrite (proj2 (String.eqb_neq _ _) Hx).
Qed.

Lemma find_title_none (target : string) (ts : list Docs.Tab) :
  find (fun t => String.eqb (Docs.title t) target) ts = None <->
  ~ In target (map Docs.title ts).
Proof.
  induction ts as [|x r IH]; simpl; [tauto|].
  destruct (String.eqb_spec (Docs.title x) target) as [E|E].
  - split; [discriminate|]. intros H. exfalso. auto.
  - rewrite IH. tauto.
Qed.

(** (X12) For a document with tabs, [getMetadataContent] looks for the
    tab whose title is the name asked for, "Metadata" when no name or an
    empty one is given.  It answers with the not-found error exactly
    when no tab has that title, that is, when the title is not among the
    ones [getTabList] lists (an empty list of tabs included), and
    otherwise with the entries of the first tab of that title, parsed
    with the object tables of the tab, or of the document where the tab
    has none. *)
Theorem tab_lookup (doc : Docs.Document) (ts : list Docs.Tab)
    (tabName : option string) :
  Docs.tabs doc = Some ts ->
  Docs.getTabList (Docs.Returned doc) = map Docs.title ts /\
  Docs.targetTabName None = "Metadata" /\
  Docs.targetTabName (Some "") = "Metadata" /\
  (~ In (Docs.targetTabName tabName) (Docs.getTabList (Docs.Returned doc)) <->
   Docs.getMetadataContent (Docs.Returned doc) tabName
   = Docs.Error ("Tab named '" +++ Docs.targetTabName tabName +++ "' not found.")) /\
  (forall before tab after,
     ts = before ++ tab :: after ->
     Forall (fun t => Docs.title t <> Docs.targetTabName tabName) before ->
     Docs.title tab = Docs.targetTabName tabName ->
     Docs.getMetadataContent (Docs.Returned doc) tabName
     = Docs.Items
         (Docs.parseBodyContent (Docs.bodyContent (Docs.tabBody tab))
            (Docs.orElse (Docs.tabInlineObjects tab)
                         (Some (Docs.orEmpty (Docs.inlineObjects doc))))
            (Docs.orElse (Docs.tabPositionedObjects tab)
                         (Some (Docs.orEmpty (Docs.positionedObjects doc)))))).
Proof.
  intros Ht. unfold Docs.getTabList, Docs.getMetadataContent. rewrite Ht.
  split; [reflexivity|]. split; [reflexivity|]. split; [reflexivity|]. split.
  - rewrite <- find_title_none.
    destruct (find _ ts); split; congruence.
  - intros before tab after -> Hb Hn.
    now rewrite (find_first_title _ before tab after Hb Hn).
Qed.

Lemma tab_lookup_witness :
  Docs.tabs HostSample.tabbed
    = Some [HostSample.tab "Notes" []; HostSample.tab "Metadata" HostSample.content;
            HostSample.tab "Metadata" []] /\
  Docs.getTabList (Docs.Returned HostSample.tabbed)
    = ["Notes"; "Metadata"; "Metadata"] /\
  Docs.getMetadataContent (Docs.Returned HostSample.tabbed) None
    = Docs.Items
        [("Gate", mkItem "the way in" [("kind", "door")] ""
                    (Some "https://img/inline"))] /\
  Docs.getMetadataContent (Docs.Returned HostSample.tabbed) (Some "Index")
    = Docs.Error "Tab named 'Index' not found.".
Proof.
  destruct (tab_lookup HostSample.tabbed
              [HostSample.tab "Notes" []; HostSample.tab "Metadata" HostSample.content;
               HostSample.tab "Metadata" []] None eq_refl)
    as (H1 & _ & _ & _ & H5).
  destruct (tab_lookup HostSample.tabbed
              [HostSample.tab "Notes" []; HostSample.tab "Metadata" HostSample.content;
               HostSample.tab "Metadata" []] (Some "Index") eq_refl)
    as (_ & _ & _ & H4 & _).
  assert (Hb : Forall (fun t => Docs.title t <> Docs.targetTabName None)
                      [HostSample.tab "Notes" []]).
  { repeat constructor. discriminate. }
  split; [reflexivity|]. split; [exact H1|]. split.
  - exact (H5 [HostSample.tab "Notes" []]
              (HostSample.tab "Metadata" HostSample.content)
              [HostSample.tab "Metadata" []] eq_refl Hb eq_refl).
  - apply H4. simpl. intros [H|[H|[H|[]]]]; discriminate H.
Defined.

(** (X13) Without tabs in the answer of the service the body of the
    document is parsed whatever tab name is asked for, and no error is
    reported; when the service throws, [getMetadataContent] answers
    with the error "Error accessing tab: " followed by the message, and
    [getTabList] with no title, as it does for a document without tabs.
    In no case does an answer carry entries with an empty or a repeated
    name. *)
Theorem metadata_content_outcomes :
  (forall doc tabName,
     Docs.tabs doc = None ->
     Docs.getMetadataContent (Docs.Returned doc) tabName
     = Docs.Items
         (Docs.parseBodyContent (Docs.bodyContent (Docs.body doc))
            (Some (Docs.orEmpty (Docs.inlineObjects doc)))
            (Some (Docs.orEmpty (Docs.positionedObjects doc)))) /\
     Docs.getTabList (Docs.Returned doc) = []) /\
  (forall message tabName,
     Docs.getMetadataContent (Docs.Thrown message) tabName
     = Docs.Error ("Error accessing tab: " +++ message) /\
     Docs.getTabList (Docs.Thrown message) = []) /\
  (forall response tabName items,
     Docs.getMetadataContent response tabName = Docs.Items items ->
     NoDup (JsObject.keys items) /\ ~ In EmptyString (JsObject.keys items)).
Proof.
  split; [|split].
  - intros doc tabName Ht. unfold Docs.getMetadataContent, Docs.getTabList.
    rewrite Ht. split; reflexivity.
  - intros. split; reflexivity.
  - assert (G : forall c inl pos,
               NoDup (JsObject.keys (Docs.parseBodyContent c inl pos)) /\
               ~ In EmptyString (JsObject.keys (Docs.parseBodyContent c inl pos))).
    { intros [c|] inl pos; simpl; [|split; [constructor|tauto]].
      split.
      - unfold parseBodyContent. rewrite backfill_fillAll, fillAll_keys.
        apply collect_NoDup.
      - intros H. now apply (parseBodyContent_named _ EmptyString H). }
    intros [message|doc] tabName items; simpl; [discriminate|].
    destruct (Docs.tabs doc) as [ts|].
    + destruct (find _ ts); [|discriminate]. intros H. injection H as <-. apply G.
    + intros H. injection H as <-. apply G.
Qed.

Lemma metadata_content_outcomes_witness :
  Docs.tabs HostSample.single = None /\
  Docs.getMetadataContent (Docs.Returned HostSample.single) (Some "Anything")
    = Docs.Items
        [("Gate", mkItem "the way in" [("kind", "door")] ""
                    (Some "https://img/inline"))] /\
  NoDup ["Gate"].
Proof.
  split; [reflexivity|].
  pose proof (proj1 (proj1 metadata_content_outcomes HostSample.single
                       (Some "Anything") eq_refl)) as H1.
  split; [exact H1|].
  exact (proj1 (proj2 (proj2 metadata_content_outcomes)
                  (Docs.Returned HostSample.single) (Some "Anything") _ H1)).
Defined.

(* ===================================================================== *)
(** ** The block of a position *)
(* ===================================================================== *)

(** (X14) [getBlockParent] gives the first paragraph or list item on
    the way from the element up through its parents, the element itself
    if it is one, and nothing when there is none on that way; what it
    gives is a paragraph or a list item, lies on that way, and is its
    own block parent. *)
Theorem getBlockParent_nearest_block (e : Element) :
  getBlockParent e = find (fun x => isBlock (getType x)) (lineage e) /\
  (forall b, getBlockParent e = Some b ->
     isBlock (getType b) = true /\ In b (lineage e) /\
     getBlockParent b = Some b) /\
  (getBlockParent e = None <->
   Forall (fun x => isBlock (getType x) = false) (lineage e)).
Proof.
  assert (G : forall x,
             getBlockParent x = find (fun y => isBlock (getType y)) (lineage x)).
  { intros x. induction x as [id type txt|id type txt p IH] using Element_parent_ind;
      simpl; destruct (isBlock type); auto. }
  assert (S : forall b, isBlock (getType b) = true -> getBlockParent b = Some b).
  { intros [id type txt parent] Hb. simpl in *. now rewrite Hb. }
  split; [apply G|]. rewrite G. split.
  - intros b Hb. apply find_some in Hb as [Hin Hb]. auto.
  - split.
    + intros Hn. apply Forall_forall. intros x Hx.
      pose proof (find_none _ _ Hn x Hx) as H. exact H.
    + intros Hf. destruct (find _ (lineage e)) as [b|] eqn:E; [|reflexivity].
      apply find_some in E as [Hin Hb].
      rewrite Forall_forall in Hf. rewrite (Hf b Hin) in Hb. discriminate.
Qed.

Lemma getBlockParent_nearest_block_witness :
  getBlockParent Page.run = Some (Page.paragraph 4 "after") /\
  isBlock (getType (Page.paragraph 4 "after")) = true /\
  In (Page.paragraph 4 "after") (lineage Page.run) /\
  getBlockParent (Page.paragraph 4 "after") = Some (Page.paragraph 4 "after").
Proof.
  split; [reflexivity|].
  exact (proj1 (proj2 (getBlockParent_nearest_block Page.run))
           (Page.paragraph 4 "after") eq_refl).
Defined.

(* ===================================================================== *)
(** ** The context in closed form *)
(* ===================================================================== *)

Lemma chain_length (sibling : Element -> option Element) (n : nat) (e : Element) :
  List.length (chain sibling n e) <= n.
Proof.
  revert e. induction n as [|n IH]; intros e; simpl; [lia|].
  destruct (sibling e) as [c|]; simpl; [|lia]. specialize (IH c). lia.
Qed.

(** A chain that has not ended goes on from its last element. *)
Lemma chain_app (sibling : Element -> option Element) (a b : nat) (e : Element) :
  List.length (chain sibling a e) = a ->
  chain sibling (a + b) e
  = chain sibling a e ++ chain sibling b (last (chain sibling a e) e).
Proof.
  revert e. induction a as [|a IH]; intros e; simpl; [reflexivity|].
  destruct (sibling e) as [c|]; simpl; [|discriminate].
  intros H. injection H as H. rewrite (IH c H). f_equal. f_equal.
  destruct (chain sibling a c) as [|x l]; [reflexivity|].
  now rewrite !last_cons.
Qed.

Lemma chain_end (sibling : Element -> option Element) (n : nat) (e : Element) :
  sibling e = None -> chain sibling n e = [].
Proof. intros H. destruct n; simpl; [reflexivity|]. now rewrite H. Qed.

(** The siblings with content a walk has gone through are the first
    ones, up to the limit, among the first hundred siblings. *)
Lemma walk_neighbours (sibling : Element -> option Element)
    (add : string -> string -> string) (limit : nat) (start : Element) :
  exists seen,
    seen = neighbours sibling limit start /\
    count (walk sibling add limit (mkWalk start "" 0 0)) = List.length seen /\
    gathered (walk sibling add limit (mkWalk start "" 0 0))
    = fold_left (fun acc x => add (getTextSafe (Some x)) acc) seen "".
Proof.
  destruct (walk_spec sibling add limit (mkWalk start "" 0 0))
    as (visited & H1 & H2 & H3 & H4 & H5 & H6 & H7 & H8 & _); simpl; try lia.
  simpl in *. exists (filter contentful visited).
  split; [|split; [exact H4|exact H6]].
  unfold neighbours.
  assert (Hk : List.length visited <= 100) by lia.
  assert (Hl : List.length (chain sibling (List.length visited) start)
               = List.length visited) by now rewrite H1.
  replace 100 with (List.length visited + (100 - List.length visited)) by lia.
  rewrite (chain_app sibling _ (100 - List.length visited) start Hl), H1.
  rewrite filter_app.
  destruct H8 as [Hc|[Hs|Hn]].
  - rewrite H4 in Hc. rewrite <- Hc.
    rewrite firstn_app, Nat.sub_diag, firstn_all. simpl. now rewrite app_nil_r.
  - rewrite H2 in Hs. rewrite Hs, Nat.sub_diag. simpl. rewrite app_nil_r.
    symmetry. apply firstn_all2. lia.
  - rewrite H7 in Hn. rewrite (chain_end sibling _ _ Hn). simpl. rewrite app_nil_r.
    symmetry. apply firstn_all2. lia.
Qed.

Lemma append_nil_r (s : string) : s +++ EmptyString = s.
Proof. induction s; simpl; congruence. Qed.

Lemma append_assoc3 (a b c : string) : (a +++ b) +++ c = a +++ b +++ c.
Proof. induction a; simpl; congruence. Qed.

Lemma spacedAfter_app (l1 l2 : list Element) :
  spacedAfter (l1 ++ l2) = spacedAfter l1 +++ spacedAfter l2.
Proof.
  induction l1 as [|x r IH]; [reflexivity|].
  cbn [app spacedAfter]. now rewrite IH, !append_assoc3.
Qed.

Lemma gathered_backwards (l : list Element) (init : string) :
  fold_left (fun prefix x => getTextSafe (Some x) +++ " " +++ prefix) l init
  = spacedAfter (rev l) +++ init.
Proof.
  revert init. induction l as [|x r IH]; intros init; [reflexivity|].
  cbn [fold_left rev]. rewrite IH, spacedAfter_app. cbn [spacedAfter].
  now rewrite append_nil_r, !append_assoc3.
Qed.

Lemma gathered_forwards (l : list Element) (init : string) :
  fold_left (fun suffix x => suffix +++ " " +++ getTextSafe (Some x)) l init
  = init +++ spacedBefore l.
Proof.
  revert init. induction l as [|x r IH]; intros init.
  - cbn [fold_left spacedBefore]. now rewrite append_nil_r.
  - cbn [fold_left spacedBefore]. now rewrite IH, !append_assoc3.
Qed.

(** (X15) The context is the empty string exactly when the position has
    no start block.  Otherwise it is the texts of the neighbours before
    the start block in reading order, each followed by a space, then a
    space, the core text, a space, and the texts of the neighbours after
    the end block, each after a space; the neighbours on a side are the
    first siblings with content, as many as the limit allows, among the
    first hundred siblings on that side.  With no limit given, or the
    limit 0, it is the core text between two spaces. *)
Theorem context_closed_form (doc : Document) (lookaround : option nat) :
  getCurrentContext doc lookaround =
  match startBlock (captureCore doc) with
  | None => EmptyString
  | Some start =>
      spacedAfter
        (rev (neighbours (getPreviousSibling doc) (limitOf lookaround) start))
      +++ " " +++ coreText (captureCore doc) +++ " "
      +++ spacedBefore
            (neighbours (getNextSibling doc) (limitOf lookaround)
               (finishOf (captureCore doc) start))
  end /\
  (getCurrentContext doc lookaround = EmptyString <->
   startBlock (captureCore doc) = None) /\
  getCurrentContext doc None =
  match startBlock (captureCore doc) with
  | None => EmptyString
  | Some _ => " " +++ coreText (captureCore doc) +++ " "
  end.
Proof.
  assert (G : forall la,
    getCurrentContext doc la =
    match startBlock (captureCore doc) with
    | None => EmptyString
    | Some start =>
        spacedAfter
          (rev (neighbours (getPreviousSibling doc) (limitOf la) start))
        +++ " " +++ coreText (captureCore doc) +++ " "
        +++ spacedBefore
              (neighbours (getNextSibling doc) (limitOf la)
                 (finishOf (captureCore doc) start))
    end).
  { intros la. unfold getCurrentContext.
    destruct (startBlock (captureCore doc)) as [start|]; [|reflexivity].
    fold (limitOf la). fold (finishOf (captureCore doc) start).
    unfold lookBackwards, lookForwards.
    destruct (walk_neighbours (getPreviousSibling doc)
                (fun txt prefix => txt +++ " " +++ prefix) (limitOf la) start)
      as (seenB & -> & _ & ->).
    destruct (walk_neighbours (getNextSibling doc)
                (fun txt suffix => suffix +++ " " +++ txt) (limitOf la)
                (finishOf (captureCore doc) start))
      as (seenF & -> & _ & ->).
    rewrite gathered_backwards, gathered_forwards, append_nil_r. reflexivity. }
  split; [apply G|]. split.
  - rewrite G. destruct (startBlock (captureCore doc)) as [start|].
    + split; [|discriminate]. intros H. apply (f_equal String.length) in H.
      rewrite !length_append in H. simpl in H. lia.
    + tauto.
  - rewrite G. destruct (startBlock (captureCore doc)); reflexivity.
Qed.

(* ===================================================================== *)
(** ** What every entry of the result looks like *)
(* ===================================================================== *)

Section MemberFacts.
Context {V : Type}.
Implicit Types (o : JsObject.Obj V) (k : string) (v : V).

Lemma get_in k v o : JsObject.get k o = Some v -> In (k, v) o.
Proof.
  induction o as [|[k' v'] r IH]; simpl; [discriminate|].
  destruct (String.eqb_spec k' k) as [->|_].
  - intros H. injection H as ->. now left.
  - intros H. right. now apply IH.
Qed.

Lemma in_adjust_const k v o x :
  In x (JsObject.adjust k (fun _ => v) o) -> x = (k, v) \/ In x o.
Proof.
  induction o as [|[k' v'] r IH]; simpl; [tauto|].
  destruct (String.eqb_spec k' k) as [->|_]; simpl.
  - intros [H|H]; auto.
  - intros [H|H]; auto. destruct (IH H); auto.
Qed.

Lemma in_insertIndex n k v o x :
  In x (JsObject.insertIndex n k v o) -> x = (k, v) \/ In x o.
Proof.
  induction o as [|[k' v'] r IH]; simpl.
  - intros [H|[]]; auto.
  - destruct (JsObject.arrayIndex k') as [n'|].
    + destruct (n' <? n)%N; simpl.
      * intros [H|H]; auto. destruct (IH H); auto.
      * intros [H|H]; auto.
    + simpl. intros [H|H]; auto.
Qed.

(** What is in an object after a write was written or was there. *)
Lemma in_set k v o x : In x (JsObject.set k v o) -> x = (k, v) \/ In x o.
Proof.
  unfold JsObject.set. destruct (JsObject.has k o); [apply in_adjust_const|].
  destruct (JsObject.arrayIndex k); [apply in_insertIndex|].
  intros H. apply in_app_or in H as [H|[H|[]]]; auto.
Qed.

End MemberFacts.

Lemma processBuffer_built (buf : list Line) (pathStr : string) (md : Metadata)
    (x : string * Item) :
  In x (processBuffer buf pathStr md) ->
  In x md \/ exists b p, snd x = buildItem b p.
Proof.
  rewrite processBuffer_cases.
  destruct (shiftLeading buf) as [|b0 rest]; [auto|].
  destruct (isEmpty (text b0)); [auto|].
  destruct (assign_cases (text b0) (buildItem (b0 :: rest) pathStr) md) as [A|A];
    rewrite A; [auto|].
  intros H. apply in_set in H as [->|H]; [right; simpl; eauto|auto].
Qed.

(** Every item the line loop stores was built from a buffer. *)
Lemma collect_built (lines : list Line) (n : string) (item : Item) :
  JsObject.get n (collect lines) = Some item ->
  exists b p, item = buildItem b p.
Proof.
  assert (F : forall st x,
             (forall y, In y (metadata st) -> exists b p, snd y = buildItem b p) ->
             In x (metadata (flush st)) -> exists b p, snd x = buildItem b p).
  { intros st x Hst. rewrite flush_metadata. destruct (buffer st); [apply Hst|].
    intros H. apply processBuffer_built in H as [H|H]; auto. }
  assert (H : forall st,
             (forall y, In y (metadata st) -> exists b p, snd y = buildItem b p) ->
             forall y, In y (metadata (fold_left step lines st)) ->
                       exists b p, snd y = buildItem b p).
  { induction lines as [|l r IH]; intros st Hst; [exact Hst|].
    simpl. apply IH. intros y. unfold step.
    destruct (headingMatch (style l)); simpl; [now apply F|].
    destruct (blankLine l); simpl; [now apply F|apply Hst]. }
  intros Hg. apply get_in in Hg. unfold collect in Hg.
  apply (F _ (n, item) (H initialState (fun y (Hy : In y []) => match Hy with end))) in Hg.
  exact Hg.
Qed.

Lemma scanLines_NoDup (rest : list Line) (props : JsObject.Obj string)
    (img : option string) :
  NoDup (JsObject.keys props) ->
  NoDup (JsObject.keys (fst (scanLines rest props img))).
Proof.
  revert props img. induction rest as [|x r IH]; intros props img H; simpl; [exact H|].
  destruct (startsWith "_" (text x)); [exact H|]. apply IH.
  destruct (propertyOf (text x)) as [[k v]|]; [now apply set_NoDup|exact H].
Qed.

Lemma startsWith_append (p s : string) : startsWith p (p +++ s) = true.
Proof.
  unfold startsWith. induction p as [|c r IH]; simpl.
  - destruct s; reflexivity.
  - destruct (ascii_dec c c); [exact IH|congruence].
Qed.

Lemma descriptionOf_shape (buf : list Line) :
  includes ":" (descriptionOf buf) = false /\
  startsWith "_" (descriptionOf buf) = false.
Proof.
  destruct buf as [|b0 [|b1 r]]; simpl; auto.
  destruct (includes ":" (text b1)) eqn:Ec; simpl; auto.
  destruct (startsWith "_" (text b1)) eqn:Eu; simpl; auto.
Qed.

(** (X16) Every entry of the map [parseBodyContent] returns is well
    formed: its image is absent or a non-empty string; its property keys
    are distinct, and every key and value is trimmed and non-empty, the
    key without a colon; and its description either is the one the line
    loop took, which has no colon and no leading underscore, or was
    written by the backfill pass and starts with "Entries: ". *)
Theorem entries_are_well_formed (lines : list Line) (n : string) (item : Item) :
  JsObject.get n (parseBodyContent lines) = Some item ->
  (itemImageUrl item = None \/ truthy (itemImageUrl item) = true) /\
  NoDup (JsObject.keys (properties item)) /\
  (forall key val,
     JsObject.get key (properties item) = Some val ->
     key <> EmptyString /\ val <> EmptyString /\
     trim key = key /\ trim val = val /\ includes ":" key = false) /\
  ((includes ":" (description item) = false /\
    startsWith "_" (description item) = false) \/
   startsWith "Entries: " (description item) = true).
Proof.
  unfold parseBodyContent. rewrite get_backfill.
  destruct (JsObject.get n (collect lines)) as [item0|] eqn:E; [|discriminate].
  simpl. intros H. injection H as <-.
  destruct (collect_built lines n item0 E) as (b & p & ->).
  assert (Hp : properties (fillItem (collect lines) n (buildItem b p))
               = properties (buildItem b p)).
  { unfold fillItem. destruct (blankDescription _); [|reflexivity].
    destruct (0 <? _)%nat; reflexivity. }
  assert (Hi : itemImageUrl (fillItem (collect lines) n (buildItem b p))
               = itemImageUrl (buildItem b p)).
  { unfold fillItem. destruct (blankDescription _); [|reflexivity].
    destruct (0 <? _)%nat; reflexivity. }
  rewrite Hp, Hi. split; [|split; [|split]].
  - rewrite buildItem_scannedImage. unfold scannedImage.
    destruct (truthy (firstImage _)) eqn:T; [now right|left].
    now apply firstImage_falsy.
  - rewrite buildItem_properties. apply scanLines_NoDup. constructor.
  - intros key val H. rewrite buildItem_properties in H.
    apply scanLines_source in H as [H|(x & _ & Hx)]; [discriminate|].
    exact (propertyOf_shape _ _ _ Hx).
  - unfold fillItem. destruct (blankDescription _).
    + destruct (0 <? _)%nat; [right; apply startsWith_append|left].
      rewrite buildItem_description. apply descriptionOf_shape.
    + left. rewrite buildItem_description. apply descriptionOf_shape.
Qed.

Lemma entries_are_well_formed_witness :
  JsObject.get "A" (parseBodyContent Sample.nesting)
    = Some (mkItem "Entries: B" [] "" None) /\
  startsWith "Entries: " (description (mkItem "Entries: B" [] "" None)) = true /\
  NoDup (JsObject.keys (properties (mkItem "Entries: B" [] "" None))).
Proof.
  split; [reflexivity|]. split; [reflexivity|].
  exact (proj1 (proj2 (entries_are_well_formed Sample.nesting "A"
                         (mkItem "Entries: B" [] "" None) eq_refl))).
Defined.

(* ===================================================================== *)
(** ** The keys the property scan writes *)
(* ===================================================================== *)

Lemma trimStart_length (s : string) :
  String.length (trimStart s) <= String.length s.
Proof.
  induction s as [|c r IH]; simpl; [lia|].
  destruct (isWhiteSpace c); simpl; lia.
Qed.

Lemma trimEnd_length (s : string) :
  String.length (trimEnd s) <= String.length s.
Proof.
  induction s as [|c r IH]; simpl; [lia|].
  destruct (trimEnd r); [destruct (isWhiteSpace c)|]; simpl in *; lia.
Qed.

(** A trimmed string does not start with white space. *)
Lemma trimmed_head (c : ascii) (r : string) :
  trim (String c r) = String c r -> isWhiteSpace c = false.
Proof.
  intros H. destruct (isWhiteSpace c) eqn:W; [|reflexivity].
  apply (f_equal String.length) in H. unfold trim in H. simpl in H.
  rewrite W in H.
  pose proof (trimEnd_length (trimStart r)). pose proof (trimStart_length r).
  simpl in H. lia.
Qed.

(** (X17) On a trimmed line, as every line of the parser is, that is no
    stop marker, the key of the property is never "__proto__": such a
    key would make the line start with an underscore.  The write
    [properties[key] = val] of the scan so always is an ordinary write
    that stores an own property. *)
Theorem scanned_key_is_ordinary (line key val : string) :
  trim line = line ->
  startsWith "_" line = false ->
  propertyOf line = Some (key, val) ->
  key <> "__proto__" /\
  forall props, JsObject.assign key val props = JsObject.set key val props.
Proof.
  intros Ht Hs Hp.
  assert (Hk : key <> "__proto__").
  { destruct (propertyOf_some line key val Hp) as (Hc & Hk & _).
    destruct (includes_split ":" line Hc) as (a & b & -> & Ha).
    change (String ":" b) with (":" +++ b) in Hp.
    rewrite (propertyOf_first_colon a b Ha) in Hp.
    destruct (negb (isEmpty (trim a)) && negb (isEmpty (trim b))); [|discriminate].
    injection Hp as <- _. intros E.
    destruct a as [|c r]; [discriminate|].
    pose proof (trimmed_head c (r +++ String ":" b) Ht) as W.
    unfold trim in E. rewrite (trimStart_head c r W) in E.
    destruct (trimEnd_head c r W) as (r' & E'). rewrite E' in E.
    injection E as Ec _. subst c.
    unfold startsWith in Hs. simpl in Hs.
    destruct (r +++ String ":" b); discriminate Hs. }
  split; [exact Hk|]. intros props. now apply assign_ordinary.
Qed.

Lemma scanned_key_is_ordinary_witness :
  trim "url: http://x:8080" = "url: http://x:8080" /\
  startsWith "_" "url: http://x:8080" = false /\
  propertyOf "url: http://x:8080" = Some ("url", "http://x:8080") /\
  "url" <> "__proto__".
Proof.
  split; [reflexivity|]. split; [reflexivity|]. split; [reflexivity|].
  exact (proj1 (scanned_key_is_ordinary "url: http://x:8080" "url"
                  "http://x:8080" eq_refl eq_refl eq_refl)).
Defined.
